(** * Order placement of the Manga.de API

    A shallow embedding of [create_order] (src/main.py, [POST /orders]) with
    the pieces it relies on: the [Product] and [Order] schemas
    (src/schemas.py), the [oid] helper, the Python values carried by the
    loosely typed line items, and the document store.

    Python [float] is IEEE 754 binary64; it is modelled by [spec_float] with
    the operations of [SpecFloat] at precision 53 and maximal exponent 1024.
    Python [int] is [Z].  A line item is a [dict] and is a [gmap] from
    strings to values. *)

From Stdlib Require Import ZArith NArith String Ascii List Lia.
From Stdlib Require Import Floats.SpecFloat.
From stdpp Require Import gmap strings list.

Local Open Scope string_scope.
Local Open Scope list_scope.
Local Open Scope Z_scope.

(** ** Python numbers *)

Abbreviation float := spec_float.

Definition prec : Z := 53.
Definition emax : Z := 1024.

(** The literal [0.0]. *)
Definition float_zero : float := S754_zero false.
Definition float_one : float := S754_finite false 4503599627370496 (-52).

Definition float_add : float -> float -> float := SFadd prec emax.
Definition float_mul : float -> float -> float := SFmul prec emax.

(** Exceptions that can leave [create_order]. [HTTPException] is the only
    one the handler raises itself; the others come from the interpreter
    ([KeyError] of [d[k]], [TypeError] and [OverflowError] of the arithmetic)
    and from [bson] ([InvalidId]). *)
Inductive exn :=
| HTTPException (status_code : Z) (detail : string)
| KeyError (key : string)
| TypeError
| OverflowError
| InvalidId.

(** Conversion of an [int] operand to [float] in mixed arithmetic: rounds to
    nearest, ties to even, and raises [OverflowError] beyond the range. *)
Definition int_to_float (n : Z) : exn + float :=
  match binary_normalize prec emax n 0 false with
  | S754_infinity _ => inl OverflowError
  | f => inr f
  end.

Definition bool_to_int (b : bool) : Z := if b then 1 else 0.

(** [n < f] for an [int] and a [float]: Python compares the exact values. *)
Definition int_lt_float (n : Z) (f : float) : bool :=
  match f with
  | S754_nan => false
  | S754_infinity s => negb s
  | S754_zero _ => n <? 0
  | S754_finite s m e =>
      let v := cond_Zopp s (Zpos m) in
      match e with
      | Z0 => n <? v
      | Zpos _ => n <? Z.shiftl v e
      | Zneg p => Z.shiftl n (Zpos p) <? v
      end
  end.

(** ** Python values of a JSON body *)

Local Set Warnings "-register-all".

Inductive value :=
| VNone
| VBool (b : bool)
| VInt (n : Z)
| VFloat (f : float)
| VStr (s : string)
| VList (l : list value)
| VDict (d : list (string * value)).

(** A line item: [dict], as in [items: List[dict]]. *)
Abbreviation item := (gmap string value).

(** [d[k]] *)
Definition getitem (d : item) (k : string) : exn + value :=
  match d !! k with
  | Some v => inr v
  | None => inl (KeyError k)
  end.

(** [d.get(k, dflt)] *)
Definition dict_get (d : item) (k : string) (dflt : value) : value :=
  default dflt (d !! k).

Fixpoint str_repeat (s : string) (n : nat) : string :=
  match n with
  | O => ""
  | S n' => s +:+ str_repeat s n'
  end.

Fixpoint list_repeat (l : list value) (n : nat) : list value :=
  match n with
  | O => []
  | S n' => l ++ list_repeat l n'
  end.

(** [a < b] with an [int] on the left. *)
Definition int_lt (a : Z) (b : value) : exn + bool :=
  match b with
  | VInt n => inr (a <? n)
  | VBool c => inr (a <? bool_to_int c)
  | VFloat f => inr (int_lt_float a f)
  | _ => inl TypeError
  end.

(** [a * b] with a [float] on the left. *)
Definition float_times (a : float) (b : value) : exn + value :=
  match b with
  | VInt n =>
      match int_to_float n with
      | inr f => inr (VFloat (float_mul a f))
      | inl e => inl e
      end
  | VBool c => inr (VFloat (float_mul a (if c then float_one else float_zero)))
  | VFloat f => inr (VFloat (float_mul a f))
  | _ => inl TypeError
  end.

(** [a * b] with an [int] on the left; a sequence on the right is repeated. *)
Definition int_times (a : Z) (b : value) : exn + value :=
  match b with
  | VInt n => inr (VInt (a * n))
  | VBool c => inr (VInt (a * bool_to_int c))
  | VFloat f =>
      match int_to_float a with
      | inr x => inr (VFloat (float_mul x f))
      | inl e => inl e
      end
  | VStr s => inr (VStr (str_repeat s (Z.to_nat a)))
  | VList l => inr (VList (list_repeat l (Z.to_nat a)))
  | _ => inl TypeError
  end.

(** [a + b] with a [float] on the left. *)
Definition float_plus (a : float) (b : value) : exn + float :=
  match b with
  | VInt n =>
      match int_to_float n with
      | inr f => inr (float_add a f)
      | inl e => inl e
      end
  | VBool c => inr (float_add a (if c then float_one else float_zero))
  | VFloat f => inr (float_add a f)
  | _ => inl TypeError
  end.

(** ** ObjectId *)

(** An [ObjectId] is its bytes.  [bson] generates twelve of them, and
    [ObjectId(s)] keeps what [bytes.fromhex] reads in a string [s] of 24
    characters: twelve bytes when [s] is 24 hexadecimal digits, fewer when
    [s] holds white space.  An id is kept as a number: one of twelve bytes
    as the number its bytes spell, which is below [2 ^ 96]; one that is
    [k] bytes short of twelve as [k * 2 ^ 96] more than the number its
    bytes spell.  Two ids are the same number exactly when they are the
    same bytes. *)
Abbreviation ObjectId := N.

Definition hex_digit (c : ascii) : option N :=
  let n := N_of_ascii c in
  if ((48 <=? n) && (n <=? 57))%N then Some (n - 48)%N
  else if ((97 <=? n) && (n <=? 102))%N then Some (n - 87)%N
  else if ((65 <=? n) && (n <=? 70))%N then Some (n - 55)%N
  else None.

(** The ASCII white space that [bytes.fromhex] skips: tab, line feed,
    vertical tab, form feed, carriage return and the space. *)
Definition is_space (c : ascii) : bool :=
  let n := N_of_ascii c in
  (((9 <=? n) && (n <=? 13)) || (n =? 32))%N.

(** [bytes.fromhex(s)]: white space is skipped before each byte and at the
    end, and a byte is two hexadecimal digits next to each other; [None]
    stands for its [ValueError]. *)
Fixpoint fromhex (s : string) : option (list N) :=
  match s with
  | EmptyString => Some []
  | String c s' =>
      if is_space c then fromhex s'
      else
        match hex_digit c, s' with
        | Some top, String c' s'' =>
            match hex_digit c' with
            | Some bot => option_map (cons (16 * top + bot)%N) (fromhex s'')
            | None => None
            end
        | _, _ => None
        end
  end.

(** The number the bytes spell, the first byte weighing most. *)
Definition bytes_value (bs : list N) : N :=
  fold_left (fun v b => (256 * v + b)%N) bs 0%N.

Definition ObjectId_of_bytes (bs : list N) : ObjectId :=
  (N.of_nat (12 - length bs) * 2 ^ 96 + bytes_value bs)%N.

(** [bson]: [ObjectId(s)] takes a string of length 24 that
    [bytes.fromhex] reads, and raises [InvalidId] for any other string. *)
Definition ObjectId_of_str (s : string) : option ObjectId :=
  if Nat.eqb (String.length s) 24
  then option_map ObjectId_of_bytes (fromhex s)
  else None.

Definition hex_char (d : N) : ascii :=
  if (d <? 10)%N then ascii_of_N (48 + d) else ascii_of_N (87 + d).

Fixpoint hex_digits (n : nat) (i : N) (acc : string) : string :=
  match n with
  | O => acc
  | S n' => hex_digits n' (i / 16)%N (String (hex_char (i mod 16)%N) acc)
  end.

(** The number of bytes of an id. *)
Definition ObjectId_length (i : ObjectId) : nat :=
  (12 - N.to_nat (i / 2 ^ 96))%nat.

(** [str(ObjectId)]: two lower-case hexadecimal digits for each byte, so
    24 of them for an id of twelve bytes. *)
Definition ObjectId_str (i : ObjectId) : string :=
  hex_digits (2 * ObjectId_length i) (i mod 2 ^ 96)%N "".

(** ** Schemas (src/schemas.py) *)

Record Product := {
  title : string;
  description : option string;
  price : float;
  image : option string;
  stock : Z
}.

Record Order := {
  user_id : string;
  items : list item;
  total : float;
  status : string
}.

(** [order.total = total] *)
Definition set_total (o : Order) (t : float) : Order :=
  {| user_id := user_id o; items := items o; total := t; status := status o |}.

(** The fields of the JSON body of [POST /orders] as the [Order] schema reads
    them: [status] may be left out and then takes its default. *)
Record OrderBody := {
  body_user_id : string;
  body_items : list item;
  body_total : float;
  body_status : option string
}.

Definition Order_of_body (b : OrderBody) : Order :=
  {| user_id := body_user_id b;
     items := body_items b;
     total := body_total b;
     status := default "pending" (body_status b) |}.

(** A stored product document as [create_order] reads it: a [dict] in which
    [stock] and [price] may be missing ([.get] with a default) and [title] is
    subscripted. *)
Record ProductDoc := {
  doc_title : option string;
  doc_description : option string;
  doc_price : option float;
  doc_image : option string;
  doc_stock : option Z
}.

(** The document a validated [Product] is dumped to. *)
Definition Product_dump (p : Product) : ProductDoc :=
  {| doc_title := Some (title p);
     doc_description := description p;
     doc_price := Some (price p);
     doc_image := image p;
     doc_stock := Some (stock p) |}.

(** ** The document store and its effects *)

(** The two collections the shop endpoints touch, ["product"] and
    ["order"]. *)
Inductive collection := coll_product | coll_order.

Definition collection_name (c : collection) : string :=
  match c with
  | coll_product => "product"
  | coll_order => "order"
  end.

(** The schema a collection is written from, and its stored documents. *)
Definition model (c : collection) : Type :=
  match c with
  | coll_product => Product
  | coll_order => Order
  end.

Definition document (c : collection) : Type :=
  match c with
  | coll_product => ProductDoc
  | coll_order => Order
  end.

Definition model_dump (c : collection) : model c -> document c :=
  match c with
  | coll_product => Product_dump
  | coll_order => fun o => o
  end.

(** Calls made to the store, in the order they are made. *)
Inductive event :=
| FindOne (c : collection) (i : ObjectId)
| InsertOne (c : collection) (i : ObjectId).

(** Modelled from the spec: [db] of database.py, the handle of the document
    store.  The state of the world is the two collections, the ObjectId
    the generator hands out next, and the log of the calls made so far. *)
Record world := {
  db_product : list (ObjectId * ProductDoc);
  db_order : list (ObjectId * Order);
  oid_next : ObjectId;
  log : list event
}.

Definition db (c : collection) (w : world) : list (ObjectId * document c) :=
  match c with
  | coll_product => db_product w
  | coll_order => db_order w
  end.

Definition db_append (c : collection) (i : ObjectId) :
    document c -> world -> world :=
  match c with
  | coll_product => fun d w =>
      {| db_product := db_product w ++ [(i, d)]; db_order := db_order w;
         oid_next := oid_next w; log := log w |}
  | coll_order => fun d w =>
      {| db_product := db_product w; db_order := db_order w ++ [(i, d)];
         oid_next := oid_next w; log := log w |}
  end.

Definition record (e : event) (w : world) : world :=
  {| db_product := db_product w; db_order := db_order w;
     oid_next := oid_next w; log := log w ++ [e] |}.

Definition take_oid (w : world) : world :=
  {| db_product := db_product w; db_order := db_order w;
     oid_next := N.succ (oid_next w); log := log w |}.

(** A handler is a computation over the store that returns or raises. *)
Definition M (A : Type) : Type := world -> (exn + A) * world.

Definition ret {A} (a : A) : M A := fun w => (inr a, w).

Definition raise {A} (e : exn) : M A := fun w => (inl e, w).

Definition bind {A B} (m : M A) (k : A -> M B) : M B :=
  fun w =>
    match m w with
    | (inr a, w') => k a w'
    | (inl e, w') => (inl e, w')
    end.

Definition lift {A} (r : exn + A) : M A := fun w => (r, w).

Definition try_except {A} (m : M A) (h : exn -> M A) : M A :=
  fun w =>
    match m w with
    | (inr a, w') => (inr a, w')
    | (inl e, w') => h e w'
    end.

Notation "x <- c ;; k" := (bind c (fun x => k))
  (at level 100, c at next level, right associativity).

Fixpoint lookup_id {D} (i : ObjectId) (l : list (ObjectId * D)) : option D :=
  match l with
  | [] => None
  | (j, d) :: l' => if N.eqb i j then Some d else lookup_id i l'
  end.

(** [db[c].find_one({"_id": i})] *)
Definition find_one (c : collection) (i : ObjectId) : M (option (document c)) :=
  fun w => (inr (lookup_id i (db c w)), record (FindOne c i) w).

(** [ObjectId()] *)
Definition ObjectId_generate : M ObjectId :=
  fun w => (inr (oid_next w), take_oid w).

(** [ObjectId(v)]: [None] asks for a new id, a string is parsed, any other
    type is refused. *)
Definition ObjectId_new (v : value) : M ObjectId :=
  match v with
  | VNone => ObjectId_generate
  | VStr s =>
      match ObjectId_of_str s with
      | Some i => ret i
      | None => raise InvalidId
      end
  | _ => raise TypeError
  end.

(** Modelled from the spec: [create_document] of database.py, the
    Persistence collaborator [insert(collection, document) -> generatedId],
    an append-only insert of the dumped model under a newly generated id,
    which it returns as a string. *)
Definition create_document (c : collection) (data : model c) : M string :=
  i <- ObjectId_generate ;;
  fun w =>
    (inr (ObjectId_str i),
     record (InsertOne c i) (db_append c i (model_dump c data) w)).

(** ** Handlers (src/main.py) *)

Definition oid (id_str : value) : M ObjectId :=
  try_except (ObjectId_new id_str)
    (fun _ => raise (HTTPException 400 "Invalid id")).

(** [str()] of a value [oid] has accepted, which is [None] or a string. *)
Definition str_of_id (v : value) : string :=
  match v with
  | VStr s => s
  | VNone => "None"
  | _ => ""
  end.

Record Created := { created_id : string }.

Definition create_product (product : Product) : M Created :=
  new_id <- create_document coll_product product ;;
  ret {| created_id := new_id |}.

Record OrderCreated := { resp_id : string; resp_total : float }.

(** [product['title']] *)
Definition get_title (p : ProductDoc) : exn + string :=
  match doc_title p with
  | Some t => inr t
  | None => inl (KeyError "title")
  end.

(** [product.get("price", 0) * q] *)
Definition price_times (p : ProductDoc) (q : value) : exn + value :=
  match doc_price p with
  | Some x => float_times x q
  | None => int_times 0 q
  end.

(** The body of the [for] loop of [create_order]. *)
Definition order_item (it : item) (total : float) : M float :=
  pid <- lift (getitem it "product_id") ;;
  i <- oid pid ;;
  product <- find_one coll_product i ;;
  match product with
  | None =>
      raise (HTTPException 404 ("Product " +:+ str_of_id pid +:+ " not found"))
  | Some p =>
      short <- lift (int_lt (default 0 (doc_stock p))
                            (dict_get it "quantity" (VInt 1))) ;;
      if (short : bool) then
        t <- lift (get_title p) ;;
        raise (HTTPException 400 ("Insufficient stock for " +:+ t))
      else
        amount <- lift (price_times p (dict_get it "quantity" (VInt 1))) ;;
        lift (float_plus total amount)
  end.

Fixpoint order_loop (its : list item) (total : float) : M float :=
  match its with
  | [] => ret total
  | it :: rest =>
      total' <- order_item it total ;;
      order_loop rest total'
  end.

Definition create_order (order : Order) : M OrderCreated :=
  total <- order_loop (items order) float_zero ;;
  new_id <- create_document coll_order (set_total order total) ;;
  ret {| resp_id := new_id; resp_total := total |}.

(** [POST /orders]: the body is validated into an [Order] and handed to
    [create_order]. *)
Definition post_orders (b : OrderBody) : M OrderCreated :=
  create_order (Order_of_body b).

(** ** The vocabulary of the specification *)

(** Events of the log that write. *)
Definition is_write (e : event) : bool :=
  match e with
  | InsertOne _ _ => true
  | FindOne _ _ => false
  end.

(** The writes of a log, in order. *)
Definition writes (l : list event) : list event := List.filter is_write l.

(** A line item that fails whatever the running total, as long as the
    catalog is [cat]. *)
Definition fails_in (cat : list (ObjectId * ProductDoc)) (it : item) : Prop :=
  forall t w, db_product w = cat -> exists e, fst (order_item it t w) = inl e.

(** The world after the catalog was asked for [i]. *)
Definition looked_up (i : ObjectId) (w : world) : world :=
  record (FindOne coll_product i) w.

(** The product a line item refers to by a well-formed id string. *)
Definition refers_to (it : item) (s : string) (i : ObjectId) : Prop :=
  it !! "product_id" = Some (VStr s) /\ ObjectId_of_str s = Some i.

(** The id the catalog is asked for on behalf of a line item: the one its
    product id string spells, or a new one when the product id is [None]. *)
Definition asks_for (it : item) (i : ObjectId) : Prop :=
  (exists s, refers_to it s i) \/ it !! "product_id" = Some VNone.

(** The requested quantity when it is an integer, 1 when it is left out. *)
Definition quantity (it : item) : option Z :=
  match it !! "quantity" with
  | None => Some 1
  | Some (VInt n) => Some n
  | Some _ => None
  end.

(** The line item names a product that is not in the catalog. *)
Definition not_found (cat : list (ObjectId * ProductDoc)) (it : item)
    (s : string) : Prop :=
  exists i, refers_to it s i /\ lookup_id i cat = None.

(** The line item asks for more than the stock of the product [p]. *)
Definition exceeds_stock (cat : list (ObjectId * ProductDoc)) (it : item)
    (p : ProductDoc) : Prop :=
  exists s i n, refers_to it s i /\ lookup_id i cat = Some p /\
                quantity it = Some n /\ default 0 (doc_stock p) < n.

(** The line item carries a product id string that is not an ObjectId. *)
Definition invalid_id (it : item) : Prop :=
  exists s, it !! "product_id" = Some (VStr s) /\ ObjectId_of_str s = None.

(** [price * quantity] of a line item that names a priced product of the
    catalog and asks for an integer quantity within its stock. *)
Definition line_total (cat : list (ObjectId * ProductDoc)) (it : item)
    (amount : float) : Prop :=
  exists s i p x n q,
    refers_to it s i /\ lookup_id i cat = Some p /\
    doc_price p = Some x /\
    quantity it = Some n /\ n <= default 0 (doc_stock p) /\
    int_to_float n = inr q /\
    amount = float_mul x q.

(** The sum of the amounts, taken in input order from [0.0]. *)
Definition float_sum (amounts : list float) : float :=
  fold_left float_add amounts float_zero.

(** The quantity [q] is a number that is not above the stock [s]. *)
Definition within_stock (q : value) (s : Z) : Prop :=
  match q with
  | VInt n => n <= s
  | VBool c => bool_to_int c <= s
  | VFloat f => int_lt_float s f = false
  | _ => False
  end.

(** The line item found its product under the id [i] and asked for no more
    than its stock: [i] is the id the item names, the catalog holds a
    product under [i], and the quantity of the item (1 when left out) is a
    number not above the stock of that product. *)
Definition found_in_stock (cat : list (ObjectId * ProductDoc)) (it : item)
    (i : ObjectId) : Prop :=
  asks_for it i /\
  exists p, lookup_id i cat = Some p /\
    within_stock (dict_get it "quantity" (VInt 1)) (default 0 (doc_stock p)).






(** ** A small shop to run the handlers on *)

Definition ex_ten : float := S754_finite false 5629499534213120 (-49).
Definition ex_three_and_half : float :=
  S754_finite false 7881299347898368 (-51).

Definition ex_id_A : string := "65a1b2c3d4e5f60718293a4b".
Definition ex_id_B : string := "65a1b2c3d4e5f60718293a4c".
Definition ex_id_missing : string := "65a1b2c3d4e5f60718293a4d".

Definition ex_oid (s : string) : ObjectId := default 0%N (ObjectId_of_str s).

(** Product A: price 10.00, stock 5.  Product B: price 3.50, stock 0. *)
Definition ex_product_A : Product :=
  {| title := "A"; description := Some ""; price := ex_ten;
     image := Some ""; stock := 5 |}.
Definition ex_product_B : Product :=
  {| title := "B"; description := Some ""; price := ex_three_and_half;
     image := Some ""; stock := 0 |}.

Definition ex_world : world :=
  {| db_product := [(ex_oid ex_id_A, Product_dump ex_product_A);
                    (ex_oid ex_id_B, Product_dump ex_product_B)];
     db_order := [];
     oid_next := 4096%N;
     log := [] |}.

(** [{"product_id": s, "quantity": n}] and [{"product_id": s}] *)
Definition ex_item (s : string) (n : Z) : item :=
  <["product_id" := VStr s]> (<["quantity" := VInt n]> ∅).
Definition ex_item_bare (s : string) : item :=
  <["product_id" := VStr s]> ∅.

Definition ex_order (its : list item) (st : string) : Order :=
  {| user_id := "u1"; items := its; total := float_zero; status := st |}.



(** ** More of src/main.py: [with_id] *)

Section WithId.

(** The objects a document holds, [str()] on them, and the strings among
    them. *)
Context {V : Type}.
Variable py_str : V -> string.
Variable of_str : string -> V.

(** [with_id(doc)]: a falsy [doc], [None] or the empty dict, is returned as
    it is; otherwise ["_id"] is popped and its [str()] is stored under
    ["id"]. *)
Definition with_id (doc : option (gmap string V)) :
    exn + option (gmap string V) :=
  match doc with
  | None => inr None
  | Some d =>
      if Nat.eqb (size d) 0 then inr (Some d)
      else
        match d !! "_id" with
        | None => inl (KeyError "_id")
        | Some x =>
            inr (Some (<["id" := of_str (py_str x)]> (delete "_id" d)))
        end
  end.

End WithId.

(** ** More vocabulary *)

Definition hex_chars : string := "0123456789abcdefABCDEF".

(** The character is a hexadecimal digit, in either case. *)
Definition is_hex (c : ascii) : bool :=
  existsb (Ascii.eqb c) (list_ascii_of_string hex_chars).

Definition all_hex (s : string) : bool :=
  forallb is_hex (list_ascii_of_string s).

(** The strings that [bytes.fromhex] reads: pairs of hexadecimal digits,
    with any white space before, between and after the pairs. *)
Inductive hex_pairs : string -> Prop :=
| hex_pairs_end : hex_pairs ""
| hex_pairs_space c s :
    is_space c = true -> hex_pairs s -> hex_pairs (String c s)
| hex_pairs_byte c1 c2 s :
    is_hex c1 = true -> is_hex c2 = true -> hex_pairs s ->
    hex_pairs (String c1 (String c2 s)).

(** The [n] bytes that spell [i], the first weighing most, before [tl]. *)
Fixpoint bytes_of (n : nat) (i : N) (tl : list N) : list N :=
  match n with
  | O => tl
  | S n' => bytes_of n' (i / 256)%N ((i mod 256)%N :: tl)
  end.

(** A value that [<] and [*] refuse next to a number. *)
Definition not_a_number (q : value) : Prop :=
  match q with
  | VNone | VStr _ | VList _ | VDict _ => True
  | _ => False
  end.

(** The product id of the line item, if it has one, is not [None]. *)
Definition names_product (it : item) : Prop :=
  it !! "product_id" <> Some VNone.

(** The failures [create_order] can end in. *)
Definition create_order_error (e : exn) : Prop :=
  match e with
  | HTTPException c d =>
      (c = 404 /\ exists pid, d = "Product " +:+ pid +:+ " not found") \/
      (c = 400 /\
       (d = "Invalid id" \/ exists t, d = "Insufficient stock for " +:+ t))
  | KeyError k => k = "product_id" \/ k = "title"
  | TypeError | OverflowError => True
  | InvalidId => False
  end.

(** A product document with the fields [create_order] reads. *)
Definition complete (p : ProductDoc) : Prop :=
  is_Some (doc_title p) /\ is_Some (doc_price p) /\ is_Some (doc_stock p).

Definition catalog_complete (cat : list (ObjectId * ProductDoc)) : Prop :=
  Forall (fun d => complete (snd d)) cat.

(** A line item that passes on its own: it names a product of the catalog
    by a well-formed id and its quantity is a number, not above the stock,
    that the price can be multiplied by. *)
Definition acceptable (cat : list (ObjectId * ProductDoc)) (it : item) : Prop :=
  exists s i p amount,
    refers_to it s i /\ lookup_id i cat = Some p /\
    within_stock (dict_get it "quantity" (VInt 1)) (default 0 (doc_stock p)) /\
    price_times p (dict_get it "quantity" (VInt 1)) = inr amount.

(** [{"product_id": s, "quantity": q}] for any value [q]. *)
Definition ex_item_with (s : string) (q : value) : item :=
  <["product_id" := VStr s]> (<["quantity" := q]> ∅).

(** [{"product_id": None, "quantity": 1}] and [{"quantity": 1}] *)
Definition ex_item_null : item :=
  <["product_id" := VNone]> (<["quantity" := VInt 1]> ∅).
Definition ex_item_anonymous : item := <["quantity" := VInt 1]> ∅.

(** The objects of a fetched document: an ObjectId or a plain value. *)
Inductive ex_obj := ExOid (i : ObjectId) | ExVal (v : value).

Definition ex_str (x : ex_obj) : string :=
  match x with
  | ExOid i => ObjectId_str i
  | ExVal v => str_of_id v
  end.

(** [{"_id": ObjectId("65a1..."), "title": "A"}] *)
Definition ex_doc : gmap string ex_obj :=
  <["_id" := ExOid (ex_oid ex_id_A)]> (<["title" := ExVal (VStr "A")]> ∅).

(** * Properties *)

(** ** The loop body and the loop leave the collections alone *)

Ltac run_monad :=
  unfold bind, lift, ret, raise, try_except, find_one, ObjectId_generate,
    record, take_oid in *; simpl in *.

Lemma oid_spec (v : value) (w : world) :
  oid v w =
    match v with
    | VNone => (inr (oid_next w), take_oid w)
    | VStr s =>
        match ObjectId_of_str s with
        | Some i => (inr i, w)
        | None => (inl (HTTPException 400 "Invalid id"), w)
        end
    | _ => (inl (HTTPException 400 "Invalid id"), w)
    end.
Proof.
  unfold oid, ObjectId_new; destruct v; run_monad; try reflexivity.
  destruct (ObjectId_of_str s); reflexivity.
Qed.

Lemma oid_frame (v : value) (w w' : world) (r : exn + ObjectId) :
  oid v w = (r, w') ->
  db_product w' = db_product w /\ db_order w' = db_order w /\
  log w' = log w.
Proof.
  rewrite oid_spec. intros H.
  destruct v; try (destruct (ObjectId_of_str s)); inversion H; subst; auto.
Qed.

(** What [oid] accepts is [None] or a string, the values [str_of_id]
    renders. *)
Lemma oid_accepts (v : value) (w w' : world) (i : ObjectId) :
  oid v w = (inr i, w') -> v = VNone \/ exists s, v = VStr s.
Proof.
  rewrite oid_spec. destruct v; try discriminate; eauto.
Qed.

Lemma oid_asks (it : item) (pid : value) (w w1 : world) (i : ObjectId) :
  it !! "product_id" = Some pid -> oid pid w = (inr i, w1) -> asks_for it i.
Proof.
  intros Hpid. rewrite oid_spec. unfold asks_for, refers_to.
  destruct pid; try discriminate.
  - intros _. now right.
  - destruct (ObjectId_of_str s) as [j|] eqn:Hs; [|discriminate].
    intros [= <- _]. left. eauto.
Qed.

Lemma order_item_frame (it : item) (t : float) (w w' : world)
    (r : exn + float) :
  order_item it t w = (r, w') ->
  db_product w' = db_product w /\ db_order w' = db_order w /\
  exists ids, log w' = log w ++ map (FindOne coll_product) ids /\
              (length ids <= 1)%nat /\ Forall (asks_for it) ids.
Proof.
  unfold order_item, getitem. intros H.
  assert (Hnil : forall l : list event, l = l ++ map (FindOne coll_product) []).
  { intros l. simpl. now rewrite app_nil_r. }
  unfold bind at 1 in H. unfold lift at 1 in H.
  destruct (it !! "product_id") as [pid|] eqn:Hpid; simpl in H.
  2: { inversion H; subst. repeat split; auto. exists [].
       repeat split; [apply Hnil | simpl; lia | constructor]. }
  unfold bind at 1 in H.
  destruct (oid pid w) as [[e|i] w1] eqn:Hoid.
  { inversion H; subst. apply oid_frame in Hoid as (?&?&Hl).
    repeat split; auto. exists []. rewrite Hl.
    repeat split; [apply Hnil | simpl; lia | constructor]. }
  pose proof (oid_asks it pid w w1 i Hpid Hoid) as Hask.
  apply oid_frame in Hoid as (Hp&Ho&Hl).
  run_monad.
  repeat case_match; inversion H; subst; simpl;
    (repeat split; auto; exists [i];
     repeat split; [now rewrite Hl | simpl; lia | now constructor]).
Qed.

Lemma order_loop_frame (its : list item) (t : float) (w w' : world)
    (r : exn + float) :
  order_loop its t w = (r, w') ->
  db_product w' = db_product w /\ db_order w' = db_order w /\
  exists ids, log w' = log w ++ map (FindOne coll_product) ids /\
              (length ids <= length its)%nat /\
              Forall (fun i => Exists (fun it => asks_for it i) its) ids.
Proof.
  revert t w. induction its as [|it its IH]; intros t w H; simpl in H.
  - inversion H; subst. repeat split; auto. exists []. simpl.
    repeat split; [now rewrite app_nil_r | lia | constructor].
  - unfold bind in H.
    destruct (order_item it t w) as [[e|t1] w1] eqn:Hit.
    + inversion H; subst.
      apply order_item_frame in Hit as (?&?&ids&?&?&Hask).
      repeat split; auto. exists ids. repeat split; [auto | simpl; lia |].
      eapply Forall_impl; [exact Hask|]. intros i Hi. now constructor.
    + apply order_item_frame in Hit as (Hp&Ho&ids&Hl&Hn&Hask).
      apply IH in H as (Hp'&Ho'&ids'&Hl'&Hn'&Hask').
      repeat split; try congruence.
      exists (ids ++ ids'). rewrite Hl', Hl, map_app, app_assoc.
      repeat split; [rewrite length_app; simpl; lia |].
      apply Forall_app. split.
      * eapply Forall_impl; [exact Hask|]. intros i Hi. now constructor.
      * eapply Forall_impl; [exact Hask'|]. intros i Hi.
        now apply Exists_cons_tl.
Qed.

(** [create_order] unfolded: the loop, then one insert. *)
Lemma create_order_spec (order : Order) (w : world) :
  create_order order w =
    match order_loop (items order) float_zero w with
    | (inr t, w1) =>
        (inr {| resp_id := ObjectId_str (oid_next w1); resp_total := t |},
         record (InsertOne coll_order (oid_next w1))
           (db_append coll_order (oid_next w1) (set_total order t)
              (take_oid w1)))
    | (inl e, w1) => (inl e, w1)
    end.
Proof.
  unfold create_order, create_document. unfold bind at 1.
  destruct (order_loop (items order) float_zero w) as [[e|t] w1];
    reflexivity.
Qed.

Lemma order_loop_app (pre post : list item) (t : float) (w : world) :
  order_loop (pre ++ post) t w =
    match order_loop pre t w with
    | (inr t1, w1) => order_loop post t1 w1
    | (inl e, w1) => (inl e, w1)
    end.
Proof.
  revert t w. induction pre as [|it pre IH]; intros t w; simpl.
  - reflexivity.
  - unfold bind. destruct (order_item it t w) as [[e|t1] w1]; auto.
Qed.

Lemma writes_app (l1 l2 : list event) :
  writes (l1 ++ l2) = writes l1 ++ writes l2.
Proof. unfold writes. apply List.filter_app. Qed.

Lemma writes_finds (ids : list ObjectId) :
  writes (map (FindOne coll_product) ids) = [].
Proof. induction ids; simpl; auto. Qed.

(** A failing line item fails the loop, wherever it stands. *)
Lemma order_loop_fails (cat : list (ObjectId * ProductDoc))
    (its : list item) (t : float) (w : world) :
  db_product w = cat ->
  Exists (fails_in cat) its ->
  exists e, fst (order_loop its t w) = inl e.
Proof.
  intros Hw H. revert t w Hw.
  induction H as [it its Hhd|it its Htl IH]; intros t w Hw; simpl; unfold bind.
  - destruct (Hhd t w Hw) as [e He].
    destruct (order_item it t w) as [[e'|t1] w1]; simpl in *; eauto.
    discriminate.
  - destruct (order_item it t w) as [[e|t1] w1] eqn:Hit; eauto.
    apply order_item_frame in Hit as (Hp&_). apply IH. congruence.
Qed.

(** When the loop fails nothing is inserted. *)
Lemma create_order_failure (order : Order) (w : world) (e : exn) :
  fst (order_loop (items order) float_zero w) = inl e ->
  exists w', create_order order w = (inl e, w') /\
             db_order w' = db_order w /\ db_product w' = db_product w /\
             writes (log w') = writes (log w).
Proof.
  intros H. rewrite create_order_spec.
  destruct (order_loop (items order) float_zero w) as [[e'|t] w1] eqn:Hl;
    simpl in H; [|discriminate].
  inversion H; subst.
  apply order_loop_frame in Hl as (Hp&Ho&ids&Hlog&_).
  exists w1. repeat split; auto.
  rewrite Hlog, writes_app, writes_finds. apply app_nil_r.
Qed.

(** ** The loop body, case by case *)

(** A line item whose product id is a string that [bson] refuses. *)
Lemma order_item_invalid (it : item) (s : string) (t : float) (w : world) :
  it !! "product_id" = Some (VStr s) ->
  ObjectId_of_str s = None ->
  order_item it t w = (inl (HTTPException 400 "Invalid id"), w).
Proof.
  intros Hpid Hs. unfold order_item, getitem. rewrite Hpid.
  unfold bind at 1, lift at 1. unfold bind at 1.
  rewrite oid_spec, Hs. reflexivity.
Qed.

(** A line item whose product id is a well-formed string. *)
Lemma order_item_str (it : item) (s : string) (i : ObjectId) (t : float)
    (w : world) :
  it !! "product_id" = Some (VStr s) ->
  ObjectId_of_str s = Some i ->
  order_item it t w =
    (match lookup_id i (db_product w) with
     | None => inl (HTTPException 404 ("Product " +:+ s +:+ " not found"))
     | Some p =>
         match int_lt (default 0 (doc_stock p))
                      (dict_get it "quantity" (VInt 1)) with
         | inl e => inl e
         | inr true =>
             match get_title p with
             | inr ttl => inl (HTTPException 400 ("Insufficient stock for " +:+ ttl))
             | inl e => inl e
             end
         | inr false =>
             match price_times p (dict_get it "quantity" (VInt 1)) with
             | inr amount => float_plus t amount
             | inl e => inl e
             end
         end
     end, looked_up i w).
Proof.
  intros Hpid Hs. unfold order_item, getitem. rewrite Hpid.
  unfold bind at 1, lift at 1. unfold bind at 1.
  rewrite oid_spec, Hs. unfold bind at 1, find_one at 1.
  cbv beta iota delta [db document]. fold (looked_up i w).
  destruct (lookup_id i (db_product w)) as [p|]; [|reflexivity].
  unfold bind at 1, lift at 1.
  destruct (int_lt _ _) as [e|[|]]; [reflexivity| |].
  - unfold bind, lift, raise. destruct (get_title p); reflexivity.
  - unfold bind, lift. destruct (price_times p _); reflexivity.
Qed.

Lemma quantity_get (it : item) (n : Z) :
  quantity it = Some n -> dict_get it "quantity" (VInt 1) = VInt n.
Proof.
  unfold quantity, dict_get. destruct (it !! "quantity") as [[]|];
    simpl; congruence.
Qed.

Lemma not_found_fails cat it s : not_found cat it s -> fails_in cat it.
Proof.
  intros (i&(Hpid&Hs)&Hl) t w Hw.
  rewrite (order_item_str it s i t w Hpid Hs), Hw, Hl. simpl. eauto.
Qed.

Lemma exceeds_stock_fails cat it p : exceeds_stock cat it p -> fails_in cat it.
Proof.
  intros (s&i&n&(Hpid&Hs)&Hl&Hq&Hlt) t w Hw.
  rewrite (order_item_str it s i t w Hpid Hs), Hw, Hl.
  rewrite (quantity_get it n Hq). simpl.
  apply Z.ltb_lt in Hlt. rewrite Hlt.
  destruct (get_title p); simpl; eauto.
Qed.

Lemma invalid_id_fails cat it : invalid_id it -> fails_in cat it.
Proof.
  intros (s&Hpid&Hs) t w _.
  rewrite (order_item_invalid it s t w Hpid Hs). simpl. eauto.
Qed.

(** A request with a failing line item fails and inserts nothing; when the
    items before it pass, the failure is the one of that item. *)
Lemma create_order_failing_item (order : Order) (w : world)
    (pre post : list item) (it : item) (e0 : exn) :
  items order = pre ++ it :: post ->
  fails_in (db_product w) it ->
  (forall t w1, db_product w1 = db_product w ->
     fst (order_item it t w1) = inl e0) ->
  exists e w', create_order order w = (inl e, w') /\
    db_order w' = db_order w /\
    (forall t w1, order_loop pre float_zero w = (inr t, w1) -> e = e0).
Proof.
  intros Hitems Hfail He0.
  destruct (order_loop_fails (db_product w) (items order) float_zero w eq_refl)
    as [e He].
  { rewrite Hitems. apply Exists_app. right. now constructor. }
  destruct (create_order_failure order w e He) as (w'&Hc&Ho&_).
  exists e, w'. repeat split; auto.
  intros t w1 Hpre. rewrite Hitems, order_loop_app, Hpre in He.
  simpl in He. unfold bind in He.
  apply order_loop_frame in Hpre as (Hp&_).
  specialize (He0 t w1 Hp).
  destruct (order_item it t w1) as [[e1|t1] w2]; simpl in *; congruence.
Qed.

(** ** C2: a product that is not in the catalog *)

(** C2, as amended: a request with a line item whose product id is not
    found in the catalog fails and persists no order, whatever the other
    line items are; the failure is the 404 [Product <id> not found] of that
    item when every line item before it passes. *)
Theorem C2_not_found_rejected (order : Order) (w : world)
    (pre post : list item) (it : item) (s : string) :
  items order = pre ++ it :: post ->
  not_found (db_product w) it s ->
  exists e w', create_order order w = (inl e, w') /\
    db_order w' = db_order w /\
    (forall t w1, order_loop pre float_zero w = (inr t, w1) ->
       e = HTTPException 404 ("Product " +:+ s +:+ " not found")).
Proof.
  intros Hitems Hnf.
  apply (create_order_failing_item order w pre post it); auto.
  - now apply not_found_fails with s.
  - destruct Hnf as (i&(Hpid&Hs)&Hl). intros t w1 Hw.
    rewrite (order_item_str it s i t w1 Hpid Hs), Hw, Hl. reflexivity.
Qed.

Lemma C2_not_found_rejected_witness :
  exists e w',
    create_order (ex_order [ex_item ex_id_A 2; ex_item ex_id_missing 1]
                    "pending") ex_world = (inl e, w') /\
    db_order w' = db_order ex_world /\
    (forall t w1,
       order_loop [ex_item ex_id_A 2] float_zero ex_world = (inr t, w1) ->
       e = HTTPException 404
             ("Product " +:+ ex_id_missing +:+ " not found")).
Proof.
  apply (C2_not_found_rejected
           (ex_order [ex_item ex_id_A 2; ex_item ex_id_missing 1] "pending")
           ex_world [ex_item ex_id_A 2] [] (ex_item ex_id_missing 1)
           ex_id_missing).
  - reflexivity.
  - exists (ex_oid ex_id_missing). repeat split; vm_compute; reflexivity.
Defined.

(** C2 as stated fails: the missing product comes second, the first line
    item is short of stock, and the answer is a 400, not the 404. *)
Lemma C2_counterexample :
  let its := [ex_item ex_id_A 9; ex_item ex_id_missing 1] in
  not_found (db_product ex_world) (ex_item ex_id_missing 1) ex_id_missing /\
  fst (create_order (ex_order its "pending") ex_world) =
    inl (HTTPException 400 "Insufficient stock for A").
Proof.
  split.
  - exists (ex_oid ex_id_missing). repeat split; vm_compute; reflexivity.
  - vm_compute. reflexivity.
Qed.

(** ** C3: a quantity above the stock *)

(** C3, as amended: a request with a line item whose quantity exceeds the
    stock of its product fails and persists no order; the failure is the
    400 [Insufficient stock for <title>] of that item when every line item
    before it passes and the product has a title. *)
Theorem C3_insufficient_stock_rejected (order : Order) (w : world)
    (pre post : list item) (it : item) (p : ProductDoc) :
  items order = pre ++ it :: post ->
  exceeds_stock (db_product w) it p ->
  exists e w', create_order order w = (inl e, w') /\
    db_order w' = db_order w /\
    (forall t w1 ttl, order_loop pre float_zero w = (inr t, w1) ->
       doc_title p = Some ttl ->
       e = HTTPException 400 ("Insufficient stock for " +:+ ttl)).
Proof.
  intros Hitems Hex.
  destruct (create_order_failing_item order w pre post it
              (match get_title p with
               | inr ttl => HTTPException 400 ("Insufficient stock for " +:+ ttl)
               | inl e => e
               end) Hitems) as (e&w'&Hc&Ho&He).
  - now apply exceeds_stock_fails with p.
  - destruct Hex as (s&i&n&(Hpid&Hs)&Hl&Hq&Hlt). intros t w1 Hw.
    rewrite (order_item_str it s i t w1 Hpid Hs), Hw, Hl.
    rewrite (quantity_get it n Hq). simpl.
    apply Z.ltb_lt in Hlt. rewrite Hlt.
    destruct (get_title p); reflexivity.
  - exists e, w'. repeat split; auto.
    intros t w1 ttl Hpre Httl. rewrite (He t w1 Hpre).
    unfold get_title. now rewrite Httl.
Qed.

Lemma C3_insufficient_stock_rejected_witness :
  exists e w',
    create_order (ex_order [ex_item ex_id_A 2; ex_item ex_id_B 1] "pending")
      ex_world = (inl e, w') /\
    db_order w' = db_order ex_world /\
    (forall t w1 ttl,
       order_loop [ex_item ex_id_A 2] float_zero ex_world = (inr t, w1) ->
       doc_title (Product_dump ex_product_B) = Some ttl ->
       e = HTTPException 400 ("Insufficient stock for " +:+ ttl)).
Proof.
  apply (C3_insufficient_stock_rejected
           (ex_order [ex_item ex_id_A 2; ex_item ex_id_B 1] "pending")
           ex_world [ex_item ex_id_A 2] [] (ex_item ex_id_B 1)
           (Product_dump ex_product_B)).
  - reflexivity.
  - exists ex_id_B, (ex_oid ex_id_B), 1.
    repeat split; vm_compute; reflexivity.
Defined.

(** C3 as stated fails: the line item short of stock comes second, the
    first names a product that does not exist, and the answer is the 404. *)
Lemma C3_counterexample :
  let its := [ex_item ex_id_missing 1; ex_item ex_id_B 1] in
  exceeds_stock (db_product ex_world) (ex_item ex_id_B 1)
    (Product_dump ex_product_B) /\
  fst (create_order (ex_order its "pending") ex_world) =
    inl (HTTPException 404 ("Product " +:+ ex_id_missing +:+ " not found")).
Proof.
  split.
  - exists ex_id_B, (ex_oid ex_id_B), 1.
    repeat split; vm_compute; reflexivity.
  - vm_compute. reflexivity.
Qed.

(** ** C9: a product id that is not an ObjectId *)

(** C9, as amended: a request with a line item whose product id is a string
    that [bson] refuses as an ObjectId (one that is not 24 characters long,
    or that [bytes.fromhex] does not read) fails and persists no order; the
    failure is the 400 [Invalid id] of [oid], not the 404, when every line
    item before it passes. *)
Theorem C9_invalid_id_rejected (order : Order) (w : world)
    (pre post : list item) (it : item) :
  items order = pre ++ it :: post ->
  invalid_id it ->
  exists e w', create_order order w = (inl e, w') /\
    db_order w' = db_order w /\
    (forall t w1, order_loop pre float_zero w = (inr t, w1) ->
       e = HTTPException 400 "Invalid id").
Proof.
  intros Hitems Hinv.
  apply (create_order_failing_item order w pre post it); auto.
  - now apply invalid_id_fails.
  - destruct Hinv as (s&Hpid&Hs). intros t w1 _.
    now rewrite (order_item_invalid it s t w1 Hpid Hs).
Qed.

Lemma C9_invalid_id_rejected_witness :
  exists e w',
    create_order (ex_order [ex_item ex_id_A 2; ex_item "not-an-id" 1]
                    "pending") ex_world = (inl e, w') /\
    db_order w' = db_order ex_world /\
    (forall t w1,
       order_loop [ex_item ex_id_A 2] float_zero ex_world = (inr t, w1) ->
       e = HTTPException 400 "Invalid id").
Proof.
  apply (C9_invalid_id_rejected
           (ex_order [ex_item ex_id_A 2; ex_item "not-an-id" 1] "pending")
           ex_world [ex_item ex_id_A 2] [] (ex_item "not-an-id" 1)).
  - reflexivity.
  - exists "not-an-id". split; vm_compute; reflexivity.
Defined.

(** C9 as stated fails: the malformed id comes second, the first line item
    names a product that does not exist, and the answer is the 404. *)
Lemma C9_counterexample :
  let its := [ex_item ex_id_missing 1; ex_item "not-an-id" 1] in
  invalid_id (ex_item "not-an-id" 1) /\
  fst (create_order (ex_order its "pending") ex_world) =
    inl (HTTPException 404 ("Product " +:+ ex_id_missing +:+ " not found")).
Proof.
  split.
  - exists "not-an-id". split; vm_compute; reflexivity.
  - vm_compute. reflexivity.
Qed.

(** A string of 24 characters that is hexadecimal digits and white space is
    no invalid id: [bson] makes an ObjectId of fewer than twelve bytes of
    it, the catalog is asked for that id, and the answer is the 404. *)
Example white_space_id_is_looked_up :
  let s := "65a1b2c3d4e5f60718293a  " in
  ~ invalid_id (ex_item s 1) /\
  ObjectId_of_str s = Some (ex_oid s) /\
  ObjectId_length (ex_oid s) = 11%nat /\
  create_order (ex_order [ex_item s 1] "pending") ex_world =
    (inl (HTTPException 404 ("Product " +:+ s +:+ " not found")),
     looked_up (ex_oid s) ex_world).
Proof.
  split; [|split; [|split]]; try (vm_compute; reflexivity).
  intros (s'&Hpid&Hs). vm_compute in Hpid. injection Hpid as <-.
  vm_compute in Hs. discriminate.
Qed.

(** ** C5: the first failing line item decides *)

(** C5: line items are handled in input order and the loop stops at the
    first that fails: when the items before [it] pass and [it] fails with
    [e], the request fails with [e] in the world [it] left, whatever
    follows; the catalog was asked at most once for each item up to [it],
    each time for the id that item names, and never for a later one. *)
Theorem C5_first_failure_decides (order : Order) (w w1 w2 : world)
    (pre post : list item) (it : item) (t : float) (e : exn) :
  items order = pre ++ it :: post ->
  order_loop pre float_zero w = (inr t, w1) ->
  order_item it t w1 = (inl e, w2) ->
  create_order order w = (inl e, w2) /\
  exists ids_pre ids_it,
    log w2 = log w ++ map (FindOne coll_product) (ids_pre ++ ids_it) /\
    (length ids_pre <= length pre)%nat /\ (length ids_it <= 1)%nat /\
    Forall (fun i => Exists (fun it' => asks_for it' i) pre) ids_pre /\
    Forall (asks_for it) ids_it.
Proof.
  intros Hitems Hpre Hit. split.
  - rewrite create_order_spec, Hitems, order_loop_app, Hpre. simpl.
    unfold bind. now rewrite Hit.
  - apply order_loop_frame in Hpre as (_&_&ids_pre&Hl1&Hn1&Ha1).
    apply order_item_frame in Hit as (_&_&ids_it&Hl2&Hn2&Ha2).
    exists ids_pre, ids_it. rewrite Hl2, Hl1, map_app, app_assoc. auto.
Qed.

Lemma C5_first_failure_decides_witness :
  create_order
    (ex_order [ex_item ex_id_A 2; ex_item ex_id_missing 1; ex_item ex_id_B 1]
       "pending") ex_world =
    (inl (HTTPException 404 ("Product " +:+ ex_id_missing +:+ " not found")),
     looked_up (ex_oid ex_id_missing) (looked_up (ex_oid ex_id_A) ex_world)) /\
  exists ids_pre ids_it,
    log (looked_up (ex_oid ex_id_missing) (looked_up (ex_oid ex_id_A) ex_world)) =
      log ex_world ++ map (FindOne coll_product) (ids_pre ++ ids_it) /\
    (length ids_pre <= length [ex_item ex_id_A 2])%nat /\
    (length ids_it <= 1)%nat /\
    Forall (fun i => Exists (fun it' => asks_for it' i) [ex_item ex_id_A 2])
      ids_pre /\
    Forall (asks_for (ex_item ex_id_missing 1)) ids_it.
Proof.
  apply (C5_first_failure_decides
           (ex_order [ex_item ex_id_A 2; ex_item ex_id_missing 1;
                      ex_item ex_id_B 1] "pending")
           ex_world (looked_up (ex_oid ex_id_A) ex_world) _
           [ex_item ex_id_A 2] [ex_item ex_id_B 1]
           (ex_item ex_id_missing 1)
           (S754_finite false 5629499534213120 (-48))).
  - reflexivity.
  - vm_compute. reflexivity.
  - vm_compute. reflexivity.
Defined.

(** ** C6: the default quantity *)

(** C6: a line item without a [quantity] field counts as one unit, in the
    stock check and in the total alike.  When it names the product [p] of
    the catalog, the loop body looks [p] up and refuses the item with the
    400 [Insufficient stock] exactly when the stock of [p] is below 1;
    otherwise it adds [price * 1] to the running total ([0 * 1] when [p]
    has no price).  A request of that one item is answered accordingly,
    and the item fares as the same item with an explicit quantity 1. *)
Theorem C6_quantity_defaults_to_one (it : item) (s : string) (i : ObjectId)
    (p : ProductDoc) (t : float) (w : world) :
  it !! "quantity" = None ->
  refers_to it s i ->
  lookup_id i (db_product w) = Some p ->
  order_item it t w =
    (if default 0 (doc_stock p) <? 1
     then match doc_title p with
          | Some ttl =>
              inl (HTTPException 400 ("Insufficient stock for " +:+ ttl))
          | None => inl (KeyError "title")
          end
     else inr (float_add t
                 match doc_price p with
                 | Some x => float_mul x float_one
                 | None => float_zero
                 end),
     looked_up i w) /\
  (forall order, items order = [it] ->
     fst (create_order order w) =
       if default 0 (doc_stock p) <? 1
       then match doc_title p with
            | Some ttl =>
                inl (HTTPException 400 ("Insufficient stock for " +:+ ttl))
            | None => inl (KeyError "title")
            end
       else inr {| resp_id := ObjectId_str (oid_next w);
                   resp_total :=
                     float_add float_zero
                       match doc_price p with
                       | Some x => float_mul x float_one
                       | None => float_zero
                       end |}) /\
  order_item it t w = order_item (<["quantity" := VInt 1]> it) t w /\
  quantity it = Some 1.
Proof.
  intros Hq [Hpid Hs] Hl.
  assert (Hbody : forall t0,
    order_item it t0 w =
      (if default 0 (doc_stock p) <? 1
       then match doc_title p with
            | Some ttl =>
                inl (HTTPException 400 ("Insufficient stock for " +:+ ttl))
            | None => inl (KeyError "title")
            end
       else inr (float_add t0
                   match doc_price p with
                   | Some x => float_mul x float_one
                   | None => float_zero
                   end),
       looked_up i w)).
  { intros t0. rewrite (order_item_str it s i t0 w Hpid Hs), Hl.
    unfold dict_get. rewrite Hq. cbn [default int_lt].
    destruct (default 0 (doc_stock p) <? 1).
    - unfold get_title. destruct (doc_title p); reflexivity.
    - unfold price_times. destruct (doc_price p); reflexivity. }
  split; [apply Hbody|]. split; [|split].
  - intros order Hitems. rewrite create_order_spec, Hitems.
    cbn [order_loop]. unfold bind. rewrite Hbody.
    destruct (default 0 (doc_stock p) <? 1).
    + destruct (doc_title p); reflexivity.
    + reflexivity.
  - unfold order_item, getitem, dict_get.
    rewrite lookup_insert_ne by discriminate.
    rewrite lookup_insert_eq, Hq. reflexivity.
  - unfold quantity. now rewrite Hq.
Qed.

Lemma C6_quantity_defaults_to_one_witness :
  let it := ex_item_bare ex_id_A in
  order_item it ex_three_and_half ex_world =
    (inr (float_add ex_three_and_half (float_mul ex_ten float_one)),
     looked_up (ex_oid ex_id_A) ex_world) /\
  (forall order, items order = [it] ->
     fst (create_order order ex_world) =
       inr {| resp_id := ObjectId_str (oid_next ex_world);
              resp_total :=
                float_add float_zero (float_mul ex_ten float_one) |}) /\
  order_item it ex_three_and_half ex_world =
    order_item (<["quantity" := VInt 1]> it) ex_three_and_half ex_world /\
  quantity it = Some 1.
Proof.
  apply (C6_quantity_defaults_to_one (ex_item_bare ex_id_A) ex_id_A
           (ex_oid ex_id_A) (Product_dump ex_product_A) ex_three_and_half
           ex_world).
  - vm_compute. reflexivity.
  - split; vm_compute; reflexivity.
  - vm_compute. reflexivity.
Defined.

(** A bare line item for A (stock 5, price 10.00) adds 10.00 to the total;
    one for B (stock 0) is short of stock, as one unit is asked for. *)
Example bare_items_run :
  fst (create_order (ex_order [ex_item_bare ex_id_A] "pending") ex_world) =
    inr {| resp_id := "000000000000000000001000"; resp_total := ex_ten |} /\
  fst (create_order (ex_order [ex_item_bare ex_id_B] "pending") ex_world) =
    inl (HTTPException 400 "Insufficient stock for B").
Proof. split; vm_compute; reflexivity. Qed.

(** ** C4: the catalog is only read *)

(** C4: [create_order] leaves every product document as it was, whether it
    succeeds or fails; on success its only write is one insert into the
    order collection, on failure it writes nothing. *)
Theorem C4_catalog_untouched (order : Order) (w : world) :
  let (r, w') := create_order order w in
  db_product w' = db_product w /\
  match r with
  | inr resp =>
      exists i, db_order w' = db_order w ++ [(i, set_total order (resp_total resp))] /\
                writes (log w') = writes (log w) ++ [InsertOne coll_order i]
  | inl _ =>
      db_order w' = db_order w /\ writes (log w') = writes (log w)
  end.
Proof.
  rewrite create_order_spec.
  destruct (order_loop (items order) float_zero w) as [[e|t] w1] eqn:Hl;
    apply order_loop_frame in Hl as (Hp&Ho&ids&Hlog&_).
  - repeat split; auto. rewrite Hlog, writes_app, writes_finds.
    apply app_nil_r.
  - simpl. split; [exact Hp|]. exists (oid_next w1). split.
    + now rewrite Ho.
    + rewrite Hlog, !writes_app, writes_finds, app_nil_r. reflexivity.
Qed.

(** ** C10: the empty request *)

(** C10, as amended: a request with no line items succeeds without asking
    the catalog anything; the persisted order has total 0.0 and the status
    the request carries, ["pending"] when the request leaves it out, and
    the response carries the new id and total 0.0. *)
Theorem C10_empty_order (b : OrderBody) (w : world) :
  body_items b = [] ->
  let i := oid_next w in
  let doc := {| user_id := body_user_id b; items := []; total := float_zero;
                status := default "pending" (body_status b) |} in
  exists w',
    post_orders b w =
      (inr {| resp_id := ObjectId_str i; resp_total := float_zero |}, w') /\
    db_order w' = db_order w ++ [(i, doc)] /\
    db_product w' = db_product w /\
    log w' = log w ++ [InsertOne coll_order i] /\
    (body_status b = None -> status doc = "pending").
Proof.
  intros Hitems i doc. unfold post_orders. rewrite create_order_spec.
  unfold Order_of_body at 1. simpl items. rewrite Hitems. simpl order_loop.
  unfold ret. eexists. split; [reflexivity|].
  unfold set_total, Order_of_body. simpl. rewrite Hitems.
  repeat split. intros Hs. subst doc. simpl. now rewrite Hs.
Qed.

Lemma C10_empty_order_witness :
  exists w',
    post_orders {| body_user_id := "u1"; body_items := [];
                   body_total := ex_ten; body_status := None |} ex_world =
      (inr {| resp_id := "000000000000000000001000";
              resp_total := float_zero |}, w') /\
    db_order w' =
      [(4096%N, {| user_id := "u1"; items := []; total := float_zero;
                   status := "pending" |})] /\
    db_product w' = db_product ex_world /\
    log w' = [InsertOne coll_order 4096%N] /\
    (@None string = None -> "pending" = "pending").
Proof.
  apply (C10_empty_order
           {| body_user_id := "u1"; body_items := [];
              body_total := ex_ten; body_status := None |} ex_world).
  reflexivity.
Defined.

(** C10 as stated fails: the request carries a status of its own and the
    persisted order keeps it. *)
Lemma C10_counterexample :
  let b := {| body_user_id := "u1"; body_items := [];
              body_total := float_zero; body_status := Some "shipped" |} in
  map (fun d => status (snd d)) (db_order (snd (post_orders b ex_world))) =
    ["shipped"].
Proof. vm_compute. reflexivity. Qed.

(** ** C1: the total of a valid request *)

Lemma order_item_line (cat : list (ObjectId * ProductDoc)) (it : item)
    (amount t : float) (w : world) :
  db_product w = cat ->
  line_total cat it amount ->
  exists i, order_item it t w = (inr (float_add t amount), looked_up i w).
Proof.
  intros Hw (s&i&p&x&n&q&(Hpid&Hs)&Hl&Hx&Hq&Hle&Hconv&->).
  exists i. rewrite (order_item_str it s i t w Hpid Hs), Hw, Hl.
  rewrite (quantity_get it n Hq). simpl.
  apply Z.ltb_ge in Hle. rewrite Hle.
  unfold price_times. rewrite Hx. simpl. rewrite Hconv. reflexivity.
Qed.

Lemma order_loop_lines (cat : list (ObjectId * ProductDoc))
    (its : list item) (amounts : list float) (t : float) (w : world) :
  db_product w = cat ->
  Forall2 (line_total cat) its amounts ->
  exists w1, order_loop its t w = (inr (fold_left float_add amounts t), w1) /\
             oid_next w1 = oid_next w /\ db_product w1 = db_product w /\
             db_order w1 = db_order w.
Proof.
  intros Hw H. revert t w Hw.
  induction H as [|it a its amounts Hit _ IH]; intros t w Hw; simpl.
  - exists w. auto.
  - destruct (order_item_line cat it a t w Hw Hit) as [i Hi].
    unfold bind. rewrite Hi.
    destruct (IH (float_add t a) (looked_up i w) Hw) as (w1&Hl&Hn&Hp&Ho).
    exists w1. auto.
Qed.

(** C1, as amended: when every line item names, by a well-formed id, a
    priced product of the catalog and asks for an integer quantity (1 when
    left out) that is at most its stock and converts to a float,
    [POST /orders] succeeds; the total is the sum of price times quantity
    over the line items in input order; the persisted order has this
    total, whatever total the request carried, and the status the request
    carried, ["pending"] when it left it out; the response has the new id
    and the total. *)
Theorem C1_valid_order_total (b : OrderBody) (w : world)
    (amounts : list float) :
  Forall2 (line_total (db_product w)) (body_items b) amounts ->
  let i := oid_next w in
  let doc := {| user_id := body_user_id b; items := body_items b;
                total := float_sum amounts;
                status := default "pending" (body_status b) |} in
  exists w',
    post_orders b w =
      (inr {| resp_id := ObjectId_str i; resp_total := float_sum amounts |},
       w') /\
    db_order w' = db_order w ++ [(i, doc)] /\
    db_product w' = db_product w /\
    (body_status b = None -> status doc = "pending").
Proof.
  intros H i doc. unfold post_orders. rewrite create_order_spec.
  destruct (order_loop_lines (db_product w) (body_items b) amounts
              float_zero w eq_refl H) as (w1&Hl&Hn&Hp&Ho).
  change (items (Order_of_body b)) with (body_items b). rewrite Hl.
  cbv iota beta. fold (float_sum amounts). rewrite Hn. fold i.
  eexists. split; [reflexivity|].
  simpl. rewrite Ho, Hp. repeat split.
  intros Hs. subst doc. simpl. now rewrite Hs.
Qed.

Lemma ex_line_A_2 :
  line_total (db_product ex_world) (ex_item ex_id_A 2)
    (S754_finite false 5629499534213120 (-48)).
Proof.
  exists ex_id_A, (ex_oid ex_id_A), (Product_dump ex_product_A), ex_ten, 2,
    (S754_finite false 4503599627370496 (-51)).
  repeat split; vm_compute; try reflexivity. discriminate.
Defined.

Lemma C1_valid_order_total_witness :
  exists w',
    post_orders {| body_user_id := "u1"; body_items := [ex_item ex_id_A 2];
                   body_total := float_zero; body_status := None |} ex_world =
      (inr {| resp_id := "000000000000000000001000";
              resp_total := S754_finite false 5629499534213120 (-48) |}, w') /\
    db_order w' =
      [(4096%N, {| user_id := "u1"; items := [ex_item ex_id_A 2];
                   total := S754_finite false 5629499534213120 (-48);
                   status := "pending" |})] /\
    db_product w' = db_product ex_world /\
    (@None string = None -> "pending" = "pending").
Proof.
  apply (C1_valid_order_total
           {| body_user_id := "u1"; body_items := [ex_item ex_id_A 2];
              body_total := float_zero; body_status := None |}
           ex_world [S754_finite false 5629499534213120 (-48)]).
  constructor; [exact ex_line_A_2 | constructor].
Defined.

(** C1 as stated fails: every line item is valid, the request carries the
    status ["shipped"], and the persisted order keeps it. *)
Lemma C1_counterexample :
  let b := {| body_user_id := "u1"; body_items := [ex_item ex_id_A 2];
              body_total := float_zero; body_status := Some "shipped" |} in
  Forall2 (line_total (db_product ex_world)) (body_items b)
    [S754_finite false 5629499534213120 (-48)] /\
  map (fun d => status (snd d)) (db_order (snd (post_orders b ex_world))) =
    ["shipped"].
Proof.
  split.
  - constructor; [exact ex_line_A_2 | constructor].
  - vm_compute. reflexivity.
Qed.

(** A quantity within the stock can still be out of the range of [float]:
    the multiplication raises and the request fails. *)
Remark huge_negative_quantity_overflows :
  fst (create_order (ex_order [ex_item ex_id_A (- 10 ^ 400)] "pending")
         ex_world) = inl OverflowError.
Proof. vm_compute. reflexivity. Qed.

(** ** C8: what is known of the quantities of a persisted order *)

Lemma int_lt_within (s : Z) (q : value) :
  int_lt s q = inr false <-> within_stock q s.
Proof.
  destruct q; simpl; try (split; [discriminate | tauto]).
  - rewrite <- Z.ltb_ge. split; [now intros [= ->] | now intros ->].
  - rewrite <- Z.ltb_ge. split; [now intros [= ->] | now intros ->].
  - split; [now intros [= ->] | now intros ->].
Qed.

(** What a line item that passed went through. *)
Lemma order_item_success_inv (it : item) (t t1 : float) (w w1 : world) :
  order_item it t w = (inr t1, w1) ->
  exists i p amount,
    lookup_id i (db_product w) = Some p /\
    int_lt (default 0 (doc_stock p)) (dict_get it "quantity" (VInt 1)) =
      inr false /\
    price_times p (dict_get it "quantity" (VInt 1)) = inr amount /\
    float_plus t amount = inr t1.
Proof.
  unfold order_item, getitem. intros H.
  unfold bind at 1, lift at 1 in H.
  destruct (it !! "product_id") as [pid|]; [|discriminate].
  unfold bind at 1 in H.
  destruct (oid pid w) as [[e|i] w0] eqn:Hoid; [discriminate|].
  apply oid_frame in Hoid as (Hp&_).
  unfold bind at 1, find_one at 1 in H.
  cbv beta iota delta [db document] in H. rewrite Hp in H.
  destruct (lookup_id i (db_product w)) as [p|] eqn:Hl; [|discriminate].
  exists i, p. unfold bind at 1, lift at 1 in H.
  destruct (int_lt _ _) as [e|[|]].
  - discriminate.
  - unfold bind, lift, raise in H. destruct (get_title p); discriminate.
  - unfold bind, lift in H.
    destruct (price_times p _) as [e|amount]; [discriminate|].
    exists amount. repeat split; auto. congruence.
Qed.

(** A line item that passed made one lookup, for the id it names, found a
    product there and asked for no more than its stock. *)
Lemma order_item_found (it : item) (t t1 : float) (w w1 : world) :
  order_item it t w = (inr t1, w1) ->
  exists i, log w1 = log w ++ [FindOne coll_product i] /\
            found_in_stock (db_product w) it i.
Proof.
  unfold order_item, getitem. intros H.
  unfold bind at 1, lift at 1 in H.
  destruct (it !! "product_id") as [pid|] eqn:Hpid; [|discriminate].
  unfold bind at 1 in H.
  destruct (oid pid w) as [[e|i] w0] eqn:Hoid; [discriminate|].
  pose proof (oid_asks it pid w w0 i Hpid Hoid) as Hask.
  apply oid_frame in Hoid as (Hp&_&Hlog).
  unfold bind at 1, find_one at 1 in H.
  cbv beta iota delta [db document] in H. rewrite Hp in H.
  destruct (lookup_id i (db_product w)) as [p|] eqn:Hl; [|discriminate].
  exists i. unfold bind at 1, lift at 1 in H.
  destruct (int_lt _ _) as [e|[|]] eqn:Hlt.
  - discriminate.
  - unfold bind, lift, raise in H. destruct (get_title p); discriminate.
  - unfold bind, lift in H.
    destruct (price_times p _) as [e|amount]; [discriminate|].
    injection H as _ <-. split.
    + simpl. now rewrite Hlog.
    + split; [exact Hask|]. exists p. split; [exact Hl|].
      now apply int_lt_within.
Qed.

Lemma order_loop_found (its : list item) (t t1 : float) (w w1 : world) :
  order_loop its t w = (inr t1, w1) ->
  exists ids, log w1 = log w ++ map (FindOne coll_product) ids /\
              Forall2 (found_in_stock (db_product w)) its ids.
Proof.
  revert t w. induction its as [|it its IH]; intros t w H; simpl in H.
  - injection H as _ <-. exists []. simpl. rewrite app_nil_r.
    split; [reflexivity | constructor].
  - unfold bind in H.
    destruct (order_item it t w) as [[e|t2] w2] eqn:Hit; [discriminate|].
    apply order_item_frame in Hit as Hfr. destruct Hfr as (Hp&_).
    apply order_item_found in Hit as (i&Hl&Hfound).
    apply IH in H as (ids&Hl'&Hall). rewrite Hp in Hall.
    exists (i :: ids). rewrite Hl', Hl, <- app_assoc.
    split; [reflexivity | now constructor].
Qed.

(** C8, as amended: [create_order] puts no lower bound on a quantity; what
    holds of an order it persists is that each of its line items found its
    product, the one the catalog holds under the id that item names and
    for which the item's lookup was made, and carries a quantity (1 when
    left out) that is a number not above the stock of that product.  Zero
    and negative quantities pass. *)
Theorem C8_persisted_quantities (order : Order) (w w' : world)
    (resp : OrderCreated) :
  create_order order w = (inr resp, w') ->
  exists j doc ids,
    db_order w' = db_order w ++ [(j, doc)] /\
    items doc = items order /\
    log w' = log w ++ map (FindOne coll_product) ids ++
             [InsertOne coll_order j] /\
    Forall2 (found_in_stock (db_product w)) (items doc) ids.
Proof.
  rewrite create_order_spec.
  destruct (order_loop (items order) float_zero w) as [[e|t] w1] eqn:Hl;
    [discriminate|].
  intros [= <- <-]. apply order_loop_found in Hl as Hfound.
  destruct Hfound as (ids&Hlog&Hall).
  apply order_loop_frame in Hl as (_&Ho&_).
  exists (oid_next w1), (set_total order t), ids. simpl.
  rewrite Ho, Hlog, <- app_assoc. auto.
Qed.

Lemma C8_persisted_quantities_witness :
  let its := [ex_item ex_id_A 2; ex_item_bare ex_id_A] in
  let w' := snd (create_order (ex_order its "pending") ex_world) in
  exists j doc ids,
    db_order w' = db_order ex_world ++ [(j, doc)] /\
    items doc = its /\
    log w' = log ex_world ++ map (FindOne coll_product) ids ++
             [InsertOne coll_order j] /\
    Forall2 (found_in_stock (db_product ex_world)) (items doc) ids.
Proof.
  apply (C8_persisted_quantities
           (ex_order [ex_item ex_id_A 2; ex_item_bare ex_id_A] "pending")
           ex_world _
           {| resp_id := "000000000000000000001000";
              resp_total := S754_finite false 8444249301319680 (-48) |}).
  vm_compute. reflexivity.
Defined.

(** C8 as stated fails: an order with a line item of quantity 0 and one of
    quantity -1 is persisted as it came. *)
Lemma C8_counterexample :
  let its := [ex_item ex_id_A 0; ex_item ex_id_A (-1)] in
  map (fun d => map quantity (items (snd d)))
    (db_order (snd (create_order (ex_order its "pending") ex_world))) =
    [[Some 0; Some (-1)]].
Proof. vm_compute. reflexivity. Qed.

(** A line item for B (stock 0) with quantity 5, one for an id that is not
    in the catalog and one without a product id did not find their
    product within stock, under any id. *)
Example found_in_stock_is_tied_to_the_item :
  (forall i, ~ found_in_stock (db_product ex_world) (ex_item ex_id_B 5) i) /\
  (forall i, ~ found_in_stock (db_product ex_world)
                 (ex_item ex_id_missing 1) i) /\
  (forall cat i, ~ found_in_stock cat (∅ : item) i).
Proof.
  assert (Hid : forall s n i, asks_for (ex_item s n) i ->
                              ObjectId_of_str s = Some i).
  { intros s n i [(s'&Hpid&Hs)|Hnone].
    - unfold ex_item in Hpid. rewrite lookup_insert_eq in Hpid.
      now injection Hpid as ->.
    - unfold ex_item in Hnone. rewrite lookup_insert_eq in Hnone.
      discriminate. }
  split; [|split].
  - intros i (Hask&p&Hl&Hq). apply Hid in Hask.
    vm_compute in Hask. injection Hask as <-.
    vm_compute in Hl. injection Hl as <-. vm_compute in Hq. now apply Hq.
  - intros i (Hask&p&Hl&_). apply Hid in Hask.
    vm_compute in Hask. injection Hask as <-.
    vm_compute in Hl. discriminate.
  - intros cat i ([(s&Hpid&_)|Hnone]&_).
    + rewrite lookup_empty in Hpid. discriminate.
    + rewrite lookup_empty in Hnone. discriminate.
Qed.

(** ** Signs of float results *)




Section Rounding.








End Rounding.




(** ** C7: signs of prices, stocks and totals *)









(** ** The scenarios of the specification, run *)

Example ex_ten_is_10 : int_to_float 10 = inr ex_ten.
Proof. reflexivity. Qed.

Example ex_id_A_round_trip :
  ObjectId_str (ex_oid ex_id_A) = ex_id_A /\
  ObjectId_of_str "65A1B2C3D4E5F60718293A4B" = Some (ex_oid ex_id_A).
Proof. split; vm_compute; reflexivity. Qed.

(** Items [{A, qty 2}, {B, qty 1}]: insufficient stock for B, no order. *)
Example scenario_insufficient_stock :
  let r := create_order
             (ex_order [ex_item ex_id_A 2; ex_item ex_id_B 1] "pending")
             ex_world in
  fst r = inl (HTTPException 400 "Insufficient stock for B") /\
  db_order (snd r) = [].
Proof. vm_compute. split; reflexivity. Qed.

(** Items [{A, qty 2}]: total 20.00, order persisted as pending. *)
Example scenario_success :
  let r := create_order (ex_order [ex_item ex_id_A 2] "pending") ex_world in
  fst r = inr {| resp_id := "000000000000000000001000";
                 resp_total := S754_finite false 5629499534213120 (-48) |} /\
  int_to_float 20 = inr (S754_finite false 5629499534213120 (-48)) /\
  map (fun d => (total (snd d), status (snd d))) (db_order (snd r)) =
    [(S754_finite false 5629499534213120 (-48), "pending")].
Proof. vm_compute. repeat split; reflexivity. Qed.


(** * More properties of the handlers *)

(** ** [with_id] *)

Lemma with_id_nonempty {V} (py_str : V -> string) (of_str : string -> V)
    (d : gmap string V) :
  d <> ∅ ->
  with_id py_str of_str (Some d) =
    match d !! "_id" with
    | None => inl (KeyError "_id")
    | Some x => inr (Some (<["id" := of_str (py_str x)]> (delete "_id" d)))
    end.
Proof.
  intros Hne. unfold with_id.
  destruct (Nat.eqb (size d) 0) eqn:Hsz; [|reflexivity].
  apply Nat.eqb_eq, map_size_empty_iff in Hsz. contradiction.
Qed.

(** X1. On a document that has an ["_id"], [with_id] succeeds; the result
    has the [str()] of that id under ["id"], has no ["_id"] any more, and
    agrees with the document on every other key (a former ["id"] is
    overwritten). *)
Theorem with_id_renames_the_id {V} (py_str : V -> string)
    (of_str : string -> V) (d : gmap string V) (x : V) :
  d !! "_id" = Some x ->
  exists d',
    with_id py_str of_str (Some d) = inr (Some d') /\
    d' !! "id" = Some (of_str (py_str x)) /\
    d' !! "_id" = None /\
    forall k, k <> "id" -> k <> "_id" -> d' !! k = d !! k.
Proof.
  intros Hid. rewrite with_id_nonempty, Hid.
  2: { intros ->. rewrite lookup_empty in Hid. discriminate. }
  eexists. split; [reflexivity|]. repeat split.
  - apply lookup_insert_eq.
  - rewrite lookup_insert_ne by discriminate. apply lookup_delete_eq.
  - intros k Hk1 Hk2.
    rewrite lookup_insert_ne by congruence.
    apply lookup_delete_ne. congruence.
Qed.

Lemma with_id_renames_the_id_witness :
  exists d',
    with_id ex_str (fun s => ExVal (VStr s)) (Some ex_doc) = inr (Some d') /\
    d' !! "id" = Some (ExVal (VStr (ex_str (ExOid (ex_oid ex_id_A))))) /\
    d' !! "_id" = None /\
    forall k, k <> "id" -> k <> "_id" -> d' !! k = ex_doc !! k.
Proof.
  apply (with_id_renames_the_id ex_str (fun s => ExVal (VStr s)) ex_doc
           (ExOid (ex_oid ex_id_A))).
  vm_compute. reflexivity.
Defined.

(** X2. [with_id] raises [KeyError('_id')] exactly on a non-empty document
    without ["_id"]; so it cannot be applied twice: on the result of a
    successful call it raises. *)
Theorem with_id_twice_raises {V} (py_str : V -> string)
    (of_str : string -> V) (d : gmap string V) (x : V) :
  d !! "_id" = Some x ->
  (forall d0 : gmap string V,
     with_id py_str of_str (Some d0) = inl (KeyError "_id") <->
     d0 <> ∅ /\ d0 !! "_id" = None) /\
  exists d',
    with_id py_str of_str (Some d) = inr (Some d') /\
    with_id py_str of_str (Some d') = inl (KeyError "_id").
Proof.
  intros Hid. split.
  - intros d0. split.
    + intros H. assert (Hne : d0 <> ∅).
      { intros ->. discriminate H. }
      split; [exact Hne|]. rewrite with_id_nonempty in H by exact Hne.
      destruct (d0 !! "_id"); [discriminate | reflexivity].
    + intros [Hne Hnone]. now rewrite with_id_nonempty, Hnone.
  - assert (Hne : d <> ∅).
    { intros ->. rewrite lookup_empty in Hid. discriminate. }
    rewrite (with_id_nonempty py_str of_str d Hne), Hid.
    eexists. split; [reflexivity|].
    rewrite with_id_nonempty.
    + rewrite lookup_insert_ne by discriminate.
      now rewrite lookup_delete_eq.
    + intros Hempty.
      assert (Hnew : (<["id" := of_str (py_str x)]> (delete "_id" d)
                        : gmap string V) !! "id" = Some (of_str (py_str x)))
        by apply lookup_insert_eq.
      rewrite Hempty, lookup_empty in Hnew. discriminate.
Qed.

Lemma with_id_twice_raises_witness :
  (forall d0 : gmap string ex_obj,
     with_id ex_str (fun s => ExVal (VStr s)) (Some d0) =
       inl (KeyError "_id") <->
     d0 <> ∅ /\ d0 !! "_id" = None) /\
  exists d',
    with_id ex_str (fun s => ExVal (VStr s)) (Some ex_doc) = inr (Some d') /\
    with_id ex_str (fun s => ExVal (VStr s)) (Some d') = inl (KeyError "_id").
Proof.
  apply (with_id_twice_raises ex_str (fun s => ExVal (VStr s)) ex_doc
           (ExOid (ex_oid ex_id_A))).
  vm_compute. reflexivity.
Defined.

(** ** [oid] *)

Lemma oid_error (v : value) (w : world) (e : exn) (w' : world) :
  oid v w = (inl e, w') -> e = HTTPException 400 "Invalid id" /\ w' = w.
Proof.
  rewrite oid_spec. intros H.
  destruct v; try (destruct (ObjectId_of_str s)); try discriminate;
    now injection H as <- <-.
Qed.

Lemma is_hex_digit (c : ascii) :
  is_hex c = match hex_digit c with Some _ => true | None => false end.
Proof. destruct c as [[] [] [] [] [] [] [] []]; reflexivity. Qed.

Lemma is_hex_not_space (c : ascii) : is_hex c = true -> is_space c = false.
Proof.
  destruct c as [[] [] [] [] [] [] [] []]; simpl; intros H;
    try reflexivity; discriminate.
Qed.

Lemma hex_digit_byte (c1 c2 : ascii) (t b : N) :
  hex_digit c1 = Some t -> hex_digit c2 = Some b -> (16 * t + b < 256)%N.
Proof.
  destruct c1 as [[] [] [] [] [] [] [] []]; try discriminate;
    intros [= <-];
    destruct c2 as [[] [] [] [] [] [] [] []]; try discriminate;
    intros [= <-]; reflexivity.
Qed.

Lemma fromhex_space (c : ascii) (s : string) :
  is_space c = true -> fromhex (String c s) = fromhex s.
Proof. intros H. simpl. now rewrite H. Qed.

Lemma fromhex_byte (c1 c2 : ascii) (s : string) :
  is_hex c1 = true -> is_hex c2 = true ->
  exists b,
    fromhex (String c1 (String c2 s)) = option_map (cons b) (fromhex s).
Proof.
  intros H1 H2. cbn [fromhex]. rewrite (is_hex_not_space _ H1).
  rewrite is_hex_digit in H1, H2.
  destruct (hex_digit c1) as [t|]; [|discriminate].
  destruct (hex_digit c2) as [b|]; [|discriminate]. eauto.
Qed.

Lemma hex_pairs_fromhex (s : string) : hex_pairs s -> is_Some (fromhex s).
Proof.
  induction 1 as [|c s Hc _ IH|c1 c2 s H1 H2 _ IH].
  - simpl. eauto.
  - now rewrite fromhex_space.
  - destruct (fromhex_byte c1 c2 s H1 H2) as [b ->].
    destruct IH as [bs ->]. simpl. eauto.
Qed.

(** What [fromhex] read is pairs of digits and white space; every byte is
    below 256, and the bytes are half the characters exactly when no
    character is white space. *)
Lemma fromhex_inv (n : nat) (s : string) (bs : list N) :
  (String.length s <= n)%nat -> fromhex s = Some bs ->
  hex_pairs s /\ Forall (fun b => (b < 256)%N) bs /\
  (2 * length bs <= String.length s)%nat /\
  (all_hex s = true <-> String.length s = (2 * length bs)%nat).
Proof.
  revert s bs. induction n as [|n IH]; intros s bs Hn H.
  - destruct s; [|simpl in Hn; lia]. injection H as <-.
    repeat split; auto; constructor.
  - destruct s as [|c s].
    { injection H as <-. repeat split; auto; constructor. }
    simpl in Hn. cbn [fromhex] in H. destruct (is_space c) eqn:Hc.
    + destruct (IH s bs ltac:(lia) H) as (Hp&Hb&Hl&Hh).
      split; [now apply hex_pairs_space|]. split; [exact Hb|].
      cbn [String.length]. split; [lia|].
      split; [|lia]. unfold all_hex. cbn [list_ascii_of_string forallb].
      destruct (is_hex c) eqn:Hx; [|discriminate].
      apply is_hex_not_space in Hx. congruence.
    + pose proof (is_hex_digit c) as Hd.
      destruct (hex_digit c) as [t|] eqn:Ht; [|discriminate].
      destruct s as [|c' s]; [discriminate|]. simpl in Hn.
      pose proof (is_hex_digit c') as Hd'.
      destruct (hex_digit c') as [b|] eqn:Hb'; [|discriminate].
      destruct (fromhex s) as [bs'|] eqn:Hs; [|discriminate].
      injection H as <-.
      destruct (IH s bs' ltac:(lia) Hs) as (Hp&Hb&Hl&Hh).
      split; [now apply hex_pairs_byte|].
      split; [constructor; [eapply hex_digit_byte; eassumption | exact Hb]|].
      cbn [String.length length]. split; [lia|].
      unfold all_hex in *. cbn [list_ascii_of_string forallb].
      rewrite Hd, Hd'. cbn [andb]. rewrite Hh. lia.
Qed.

Lemma fromhex_accepts (s : string) : is_Some (fromhex s) <-> hex_pairs s.
Proof.
  split; [|apply hex_pairs_fromhex].
  intros [bs H]. now apply (fromhex_inv (String.length s) s bs).
Qed.

Lemma ObjectId_of_str_valid (s : string) :
  is_Some (ObjectId_of_str s) <->
  String.length s = 24%nat /\ hex_pairs s.
Proof.
  unfold ObjectId_of_str.
  destruct (Nat.eqb (String.length s) 24) eqn:Hlen.
  - apply Nat.eqb_eq in Hlen. rewrite <- fromhex_accepts.
    destruct (fromhex s); simpl; split; eauto.
    + intros [? [=]].
    + intros [_ [? [=]]].
  - apply Nat.eqb_neq in Hlen. split; [intros [? [=]] | tauto].
Qed.

Lemma bytes_value_bound (bs : list N) :
  Forall (fun b => (b < 256)%N) bs ->
  (bytes_value bs < 256 ^ N.of_nat (length bs))%N.
Proof.
  unfold bytes_value.
  enough (forall v,
    Forall (fun b => (b < 256)%N) bs ->
    (fold_left (fun v b => (256 * v + b)%N) bs v <
     (v + 1) * 256 ^ N.of_nat (length bs))%N) as H.
  { intros Hb. specialize (H 0%N Hb). lia. }
  induction bs as [|b bs IH]; intros v Hb.
  - simpl. lia.
  - inversion Hb as [|? ? Hlt Hbs]; subst. cbn [fold_left length].
    specialize (IH (256 * v + b)%N Hbs).
    rewrite Nat2N.inj_succ, N.pow_succ_r'.
    eapply N.lt_le_trans; [exact IH|].
    rewrite N.mul_assoc. apply N.mul_le_mono_r. lia.
Qed.

(** The id read in a string has twelve bytes exactly when the string holds
    no white space, that is, when it is 24 hexadecimal digits. *)
Lemma ObjectId_of_str_twelve (s : string) (i : ObjectId) :
  ObjectId_of_str s = Some i -> ((i < 2 ^ 96)%N <-> all_hex s = true).
Proof.
  unfold ObjectId_of_str.
  destruct (Nat.eqb (String.length s) 24) eqn:Hlen; [|discriminate].
  apply Nat.eqb_eq in Hlen.
  destruct (fromhex s) as [bs|] eqn:Hs; [|discriminate].
  intros [= <-].
  destruct (fromhex_inv _ s bs (Nat.le_refl _) Hs) as (_&Hb&Hl&Hh).
  apply bytes_value_bound in Hb. rewrite Hh, Hlen.
  unfold ObjectId_of_bytes.
  destruct (Nat.eq_dec (length bs) 12%nat) as [E|E].
  - rewrite E in *. change (256 ^ N.of_nat 12)%N with (2 ^ 96)%N in Hb.
    simpl N.of_nat. split; [reflexivity | intros _; lia].
  - split; [|lia]. intros Hlt. exfalso.
    assert (1 <= N.of_nat (12 - length bs))%N as Hk by lia.
    assert (1 * 2 ^ 96 <= N.of_nat (12 - length bs) * 2 ^ 96)%N as Hm
      by (apply N.mul_le_mono_r; exact Hk).
    lia.
Qed.

(** X3. [oid] accepts exactly [None] and the strings of 24 characters
    that are pairs of hexadecimal digits with white space before, between
    or after the pairs; the id of such a string has twelve bytes exactly
    when the string is 24 hexadecimal digits.  Whatever else [oid] is
    given, a string of another shape or a value of another type, it
    raises the 400 [Invalid id] and nothing else, and leaves the store as
    it was. *)
Theorem oid_accepts_exactly (v : value) (w : world) :
  ((exists i w', oid v w = (inr i, w')) <->
   (v = VNone \/
    exists s, v = VStr s /\ String.length s = 24%nat /\ hex_pairs s)) /\
  (forall s i w', oid (VStr s) w = (inr i, w') ->
     w' = w /\ ObjectId_of_str s = Some i /\
     ((i < 2 ^ 96)%N <-> all_hex s = true)) /\
  (forall e w', oid v w = (inl e, w') ->
     e = HTTPException 400 "Invalid id" /\ w' = w).
Proof.
  split; [|split].
  - rewrite oid_spec. split.
    + intros (i&w'&H).
      destruct v; try discriminate; [now left | right].
      exists s. split; [reflexivity|]. apply ObjectId_of_str_valid.
      destruct (ObjectId_of_str s); [eauto | discriminate].
    + intros [->|(s&->&Hs)]; [eauto|].
      apply ObjectId_of_str_valid in Hs as [i ->]. eauto.
  - intros s i w'. rewrite oid_spec.
    destruct (ObjectId_of_str s) as [j|] eqn:Hs; [|discriminate].
    intros [= <- <-]. split; [reflexivity|]. split; [reflexivity|].
    now apply ObjectId_of_str_twelve.
  - intros e w'. apply oid_error.
Qed.

(** ** From [create_product] to [create_order] *)

Lemma hex_digit_hex_char (d : N) :
  (d < 16)%N -> hex_digit (hex_char d) = Some d.
Proof.
  intros H. destruct d as [|p]; [reflexivity|].
  do 4 (destruct p as [p|p|]; try reflexivity; try lia).
Qed.

Lemma is_space_hex_char (d : N) :
  (d < 16)%N -> is_space (hex_char d) = false.
Proof.
  intros H. destruct d as [|p]; [reflexivity|].
  do 4 (destruct p as [p|p|]; try reflexivity; try lia).
Qed.

Lemma fromhex_hex_digits (n : nat) (i : N) (acc : string) :
  fromhex (hex_digits (2 * n) i acc) =
  option_map (bytes_of n i) (fromhex acc).
Proof.
  revert i acc. induction n as [|n IH]; intros i acc.
  - simpl. now destruct (fromhex acc).
  - replace (2 * S n)%nat with (S (S (2 * n))) by lia.
    cbn [hex_digits]. rewrite IH. cbn [fromhex].
    rewrite is_space_hex_char by (apply N.mod_lt; lia).
    rewrite !hex_digit_hex_char by (apply N.mod_lt; lia).
    rewrite N.Div0.div_div.
    replace (16 * ((i / 16) mod 16) + i mod 16)%N with (i mod 256)%N.
    + destruct (fromhex acc); reflexivity.
    + change 256%N with (16 * 16)%N.
      rewrite (N.Div0.mod_mul_r i 16 16). lia.
Qed.

Lemma fold_bytes_of (n : nat) (i v : N) (tl : list N) :
  fold_left (fun v b => (256 * v + b)%N) (bytes_of n i tl) v =
  fold_left (fun v b => (256 * v + b)%N) tl
    (v * 256 ^ N.of_nat n + i mod 256 ^ N.of_nat n)%N.
Proof.
  revert i v tl. induction n as [|n IH]; intros i v tl.
  - simpl. f_equal. rewrite N.mod_1_r. lia.
  - cbn [bytes_of]. rewrite IH. cbn [fold_left]. f_equal.
    rewrite Nat2N.inj_succ, N.pow_succ_r'.
    rewrite (N.Div0.mod_mul_r i 256). lia.
Qed.

Lemma length_bytes_of (n : nat) (i : N) (tl : list N) :
  length (bytes_of n i tl) = (n + length tl)%nat.
Proof.
  revert i tl. induction n as [|n IH]; intros i tl; simpl; [reflexivity|].
  rewrite IH. simpl. lia.
Qed.

Lemma length_hex_digits (n : nat) (i : N) (acc : string) :
  String.length (hex_digits n i acc) = (n + String.length acc)%nat.
Proof.
  revert i acc. induction n as [|n IH]; intros i acc; simpl; [reflexivity|].
  rewrite IH. simpl. lia.
Qed.

Lemma ObjectId_str_twelve (i : ObjectId) :
  (i < 2 ^ 96)%N -> ObjectId_str i = hex_digits 24 i "".
Proof.
  intros H. unfold ObjectId_str, ObjectId_length.
  rewrite N.div_small, N.mod_small by exact H. reflexivity.
Qed.

(** An id of twelve bytes is read back from its string. *)
Lemma ObjectId_round_trip (i : ObjectId) :
  (i < 2 ^ 96)%N -> ObjectId_of_str (ObjectId_str i) = Some i.
Proof.
  intros H. rewrite ObjectId_str_twelve by exact H.
  unfold ObjectId_of_str.
  rewrite length_hex_digits. simpl Nat.eqb. cbv iota.
  rewrite (fromhex_hex_digits 12). cbn [fromhex option_map]. f_equal.
  unfold ObjectId_of_bytes, bytes_value.
  rewrite length_bytes_of, fold_bytes_of. cbn [fold_left length].
  change (256 ^ N.of_nat 12)%N with (2 ^ 96)%N.
  rewrite N.mod_small by exact H. simpl. lia.
Qed.

Lemma lookup_id_app_new {D} (i : ObjectId) (d : D) (l : list (ObjectId * D)) :
  lookup_id i l = None -> lookup_id i (l ++ [(i, d)]) = Some d.
Proof.
  induction l as [|[j e] l IH]; simpl.
  - now rewrite N.eqb_refl.
  - destruct (N.eqb i j); [discriminate | exact IH].
Qed.

(** X4. A product taken by [create_product] can be ordered under the id
    the call returned: when the generated id is twelve bytes and not yet
    in the catalog, and the quantity is an integer within the product's
    stock that converts to a float, the order of that id succeeds with
    total [0.0 + price * quantity], whatever user, total and status the
    request carries. *)
Theorem created_product_can_be_ordered (product : Product) (w : world)
    (n : Z) (q : float) :
  (oid_next w < 2 ^ 96)%N ->
  lookup_id (oid_next w) (db_product w) = None ->
  n <= stock product ->
  int_to_float n = inr q ->
  exists w1,
    create_product product w =
      (inr {| created_id := ObjectId_str (oid_next w) |}, w1) /\
    forall user tot st, exists w2,
      create_order
        {| user_id := user;
           items := [ex_item (ObjectId_str (oid_next w)) n];
           total := tot; status := st |} w1 =
        (inr {| resp_id := ObjectId_str (N.succ (oid_next w));
                resp_total := float_add float_zero
                                (float_mul (price product) q) |}, w2).
Proof.
  intros Hi Hfresh Hn Hq. eexists. split; [reflexivity|].
  intros user tot st. rewrite create_order_spec. cbn [items].
  set (w1 := record _ _).
  assert (Hline : line_total (db_product w1)
                    (ex_item (ObjectId_str (oid_next w)) n)
                    (float_mul (price product) q)).
  { exists (ObjectId_str (oid_next w)), (oid_next w), (Product_dump product),
      (price product), n, q.
    unfold refers_to, quantity, ex_item.
    rewrite lookup_insert_eq, lookup_insert_ne, lookup_insert_eq
      by discriminate.
    rewrite (ObjectId_round_trip _ Hi).
    repeat split; auto.
    subst w1. simpl. now apply lookup_id_app_new. }
  destruct (order_loop_lines (db_product w1)
              [ex_item (ObjectId_str (oid_next w)) n]
              [float_mul (price product) q] float_zero w1 eq_refl)
    as (w2&Hl&Hnext&_).
  { constructor; [exact Hline | constructor]. }
  rewrite Hl. cbv iota beta. rewrite Hnext. subst w1. simpl.
  eexists. reflexivity.
Qed.

Lemma created_product_can_be_ordered_witness :
  exists w1,
    create_product ex_product_A ex_world =
      (inr {| created_id := ObjectId_str (oid_next ex_world) |}, w1) /\
    forall user tot st, exists w2,
      create_order
        {| user_id := user;
           items := [ex_item (ObjectId_str (oid_next ex_world)) 5];
           total := tot; status := st |} w1 =
        (inr {| resp_id := ObjectId_str (N.succ (oid_next ex_world));
                resp_total :=
                  float_add float_zero
                    (float_mul (price ex_product_A)
                       (S754_finite false 5629499534213120 (-50))) |}, w2).
Proof.
  apply (created_product_can_be_ordered ex_product_A ex_world 5
           (S754_finite false 5629499534213120 (-50))).
  - vm_compute. reflexivity.
  - vm_compute. reflexivity.
  - vm_compute. discriminate.
  - vm_compute. reflexivity.
Defined.

(** X5. [oid] reads back every id the handlers hand out: the string of a
    twelve-byte ObjectId is accepted and gives that ObjectId. *)
Theorem oid_reads_back (i : ObjectId) (w : world) :
  (i < 2 ^ 96)%N -> oid (VStr (ObjectId_str i)) w = (inr i, w).
Proof.
  intros H. rewrite oid_spec. now rewrite ObjectId_round_trip.
Qed.

Lemma oid_reads_back_witness :
  oid (VStr (ObjectId_str 4096)) ex_world = (inr 4096%N, ex_world).
Proof.
  apply (oid_reads_back 4096 ex_world). vm_compute. reflexivity.
Defined.

(** ** Edges of [create_order] *)

Lemma order_item_null (it : item) (t : float) (w : world) :
  it !! "product_id" = Some VNone ->
  lookup_id (oid_next w) (db_product w) = None ->
  order_item it t w =
    (inl (HTTPException 404 "Product None not found"),
     looked_up (oid_next w) (take_oid w)).
Proof.
  intros Hpid Hl. unfold order_item, getitem. rewrite Hpid.
  unfold bind at 1, lift at 1. unfold bind at 1. rewrite oid_spec.
  unfold bind at 1, find_one at 1.
  cbv beta iota delta [db document]. fold (looked_up (oid_next w) (take_oid w)).
  change (db_product (take_oid w)) with (db_product w). rewrite Hl.
  reflexivity.
Qed.

(** X6. A line item whose product id is [None] is not refused as an
    invalid id: [ObjectId(None)] makes a new id, the catalog is asked for
    it, and when it is not there the request fails with the 404
    [Product None not found]; one id of the generator is used up. *)
Theorem null_product_id_is_not_found (order : Order) (w : world)
    (it : item) (rest : list item) :
  items order = it :: rest ->
  it !! "product_id" = Some VNone ->
  lookup_id (oid_next w) (db_product w) = None ->
  create_order order w =
    (inl (HTTPException 404 "Product None not found"),
     looked_up (oid_next w) (take_oid w)).
Proof.
  intros Hitems Hpid Hl. rewrite create_order_spec, Hitems. simpl.
  unfold bind at 1. now rewrite (order_item_null it float_zero w Hpid Hl).
Qed.

Lemma null_product_id_is_not_found_witness :
  create_order (ex_order [ex_item_null; ex_item ex_id_A 2] "pending")
    ex_world =
    (inl (HTTPException 404 "Product None not found"),
     looked_up (oid_next ex_world) (take_oid ex_world)).
Proof.
  apply (null_product_id_is_not_found
           (ex_order [ex_item_null; ex_item ex_id_A 2] "pending") ex_world
           ex_item_null [ex_item ex_id_A 2]);
    vm_compute; reflexivity.
Defined.

(** The lookups of line items that pass. *)
Lemma order_item_success_log (it : item) (t t1 : float) (w w1 : world) :
  order_item it t w = (inr t1, w1) ->
  exists i, log w1 = log w ++ [FindOne coll_product i] /\ asks_for it i.
Proof.
  unfold order_item, getitem. intros H.
  unfold bind at 1, lift at 1 in H.
  destruct (it !! "product_id") as [pid|] eqn:Hpid; [|discriminate].
  unfold bind at 1 in H.
  destruct (oid pid w) as [[e|i] w0] eqn:Hoid; [discriminate|].
  pose proof (oid_asks it pid w w0 i Hpid Hoid) as Hask.
  apply oid_frame in Hoid as (_&_&Hlog).
  exists i. split; [|exact Hask]. rewrite <- Hlog.
  run_monad. repeat case_match; inversion H; subst; reflexivity.
Qed.

Lemma order_loop_success_log (its : list item) (t t1 : float)
    (w w1 : world) :
  order_loop its t w = (inr t1, w1) ->
  exists ids, log w1 = log w ++ map (FindOne coll_product) ids /\
              Forall2 asks_for its ids.
Proof.
  revert t w. induction its as [|it its IH]; intros t w H; simpl in H.
  - injection H as _ <-. exists []. simpl. now rewrite app_nil_r.
  - unfold bind in H.
    destruct (order_item it t w) as [[e|t2] w2] eqn:Hit; [discriminate|].
    apply order_item_success_log in Hit as (i&Hl&Hask).
    apply IH in H as (ids&Hl'&Hall).
    exists (i :: ids). rewrite Hl', Hl, <- app_assoc. split; [reflexivity|].
    now constructor.
Qed.

Lemma order_item_no_product_id (it : item) (t : float) (w : world) :
  it !! "product_id" = None ->
  order_item it t w = (inl (KeyError "product_id"), w).
Proof.
  intros Hpid. unfold order_item, getitem. now rewrite Hpid.
Qed.

(** X7. A line item without a ["product_id"] key makes the request fail
    and nothing is persisted; when the line items before it pass, the
    failure is the [KeyError] of the subscript, which is no
    [HTTPException], and it is raised before any lookup for that item:
    the request ends in the world the earlier items left, with their
    lookups in the log and no other call. *)
Theorem missing_product_id_raises (order : Order) (w : world)
    (pre post : list item) (it : item) :
  items order = pre ++ it :: post ->
  it !! "product_id" = None ->
  (exists e w', create_order order w = (inl e, w') /\
     db_order w' = db_order w) /\
  (forall t w1, order_loop pre float_zero w = (inr t, w1) ->
     create_order order w = (inl (KeyError "product_id"), w1) /\
     log (snd (create_order order w)) = log w1 /\
     exists ids, log w1 = log w ++ map (FindOne coll_product) ids /\
                 Forall2 asks_for pre ids).
Proof.
  intros Hitems Hpid. split.
  - destruct (create_order_failing_item order w pre post it
                (KeyError "product_id") Hitems) as (e&w'&Hc&Ho&_).
    + intros t w1 _. rewrite (order_item_no_product_id it t w1 Hpid).
      simpl. eauto.
    + intros t w1 _. now rewrite (order_item_no_product_id it t w1 Hpid).
    + eauto.
  - intros t w1 Hpre.
    assert (Hc : create_order order w = (inl (KeyError "product_id"), w1)).
    { rewrite create_order_spec, Hitems, order_loop_app, Hpre.
      cbn [order_loop]. unfold bind.
      now rewrite (order_item_no_product_id it t w1 Hpid). }
    rewrite Hc. split; [reflexivity|]. split; [reflexivity|].
    now apply order_loop_success_log in Hpre.
Qed.

Lemma missing_product_id_raises_witness :
  let order := ex_order [ex_item ex_id_A 2; ex_item_anonymous] "pending" in
  (exists e w', create_order order ex_world = (inl e, w') /\
     db_order w' = db_order ex_world) /\
  (forall t w1,
     order_loop [ex_item ex_id_A 2] float_zero ex_world = (inr t, w1) ->
     create_order order ex_world = (inl (KeyError "product_id"), w1) /\
     log (snd (create_order order ex_world)) = log w1 /\
     exists ids, log w1 = log ex_world ++ map (FindOne coll_product) ids /\
                 Forall2 asks_for [ex_item ex_id_A 2] ids).
Proof.
  apply (missing_product_id_raises
           (ex_order [ex_item ex_id_A 2; ex_item_anonymous] "pending")
           ex_world [ex_item ex_id_A 2] [] ex_item_anonymous);
    vm_compute; reflexivity.
Defined.

(** The request [{A, qty 2}, {quantity: 1}] run: one lookup, for A, and
    the [KeyError]. *)
Example missing_product_id_run :
  create_order (ex_order [ex_item ex_id_A 2; ex_item_anonymous] "pending")
    ex_world =
    (inl (KeyError "product_id"), looked_up (ex_oid ex_id_A) ex_world).
Proof. vm_compute. reflexivity. Qed.

Lemma int_lt_not_a_number (s : Z) (q : value) :
  not_a_number q -> int_lt s q = inl TypeError.
Proof. destruct q; simpl; tauto. Qed.

(** X8. A line item that names an existing product but whose quantity is
    not a number (a string, [None], a list or a dict) makes the request
    fail and nothing is persisted; when the line items before it pass,
    the failure is the [TypeError] of the comparison with the stock. *)
Theorem non_numeric_quantity_raises (order : Order) (w : world)
    (pre post : list item) (it : item) (s : string) (i : ObjectId)
    (p : ProductDoc) :
  items order = pre ++ it :: post ->
  refers_to it s i ->
  lookup_id i (db_product w) = Some p ->
  not_a_number (dict_get it "quantity" (VInt 1)) ->
  exists e w', create_order order w = (inl e, w') /\
    db_order w' = db_order w /\
    (forall t w1, order_loop pre float_zero w = (inr t, w1) ->
       e = TypeError).
Proof.
  intros Hitems [Hpid Hs] Hl Hq.
  assert (Hitem : forall t w1, db_product w1 = db_product w ->
                    fst (order_item it t w1) = inl TypeError).
  { intros t w1 Hw. rewrite (order_item_str it s i t w1 Hpid Hs), Hw, Hl.
    now rewrite int_lt_not_a_number. }
  apply (create_order_failing_item order w pre post it); auto.
  intros t w1 Hw. rewrite (Hitem t w1 Hw). eauto.
Qed.

Lemma non_numeric_quantity_raises_witness :
  exists e w',
    create_order
      (ex_order [ex_item ex_id_A 2; ex_item_with ex_id_A (VStr "2")]
         "pending") ex_world = (inl e, w') /\
    db_order w' = db_order ex_world /\
    (forall t w1,
       order_loop [ex_item ex_id_A 2] float_zero ex_world = (inr t, w1) ->
       e = TypeError).
Proof.
  apply (non_numeric_quantity_raises
           (ex_order [ex_item ex_id_A 2; ex_item_with ex_id_A (VStr "2")]
              "pending")
           ex_world [ex_item ex_id_A 2] [] (ex_item_with ex_id_A (VStr "2"))
           ex_id_A (ex_oid ex_id_A) (Product_dump ex_product_A)).
  - reflexivity.
  - split; vm_compute; reflexivity.
  - vm_compute. reflexivity.
  - vm_compute. exact I.
Defined.

Lemma float_add_nan_l (y : float) : float_add S754_nan y = S754_nan.
Proof. reflexivity. Qed.

Lemma float_add_nan_r (x : float) : float_add x S754_nan = S754_nan.
Proof. destruct x; reflexivity. Qed.

Lemma float_mul_nan_r (x : float) : float_mul x S754_nan = S754_nan.
Proof. destruct x; reflexivity. Qed.

Lemma float_plus_nan (amount : value) (t1 : float) :
  float_plus S754_nan amount = inr t1 -> t1 = S754_nan.
Proof.
  destruct amount; simpl; try discriminate.
  - now intros [= <-].
  - destruct (int_to_float n); [discriminate | now intros [= <-]].
  - now intros [= <-].
Qed.

Lemma price_times_nan (p : ProductDoc) :
  price_times p (VFloat S754_nan) = inr (VFloat S754_nan).
Proof.
  unfold price_times. destruct (doc_price p) as [x|]; simpl.
  - now rewrite float_mul_nan_r.
  - reflexivity.
Qed.

Lemma order_loop_nan (its : list item) (t t1 : float) (w w1 : world) :
  order_loop its t w = (inr t1, w1) ->
  t = S754_nan \/
    Exists (fun it => it !! "quantity" = Some (VFloat S754_nan)) its ->
  t1 = S754_nan.
Proof.
  revert t w. induction its as [|it its IH]; intros t w H Hnan; simpl in H.
  - injection H as <- _. destruct Hnan as [?|Hex]; [assumption|].
    inversion Hex.
  - unfold bind in H.
    destruct (order_item it t w) as [[e|t2] w2] eqn:Hit; [discriminate|].
    apply (IH t2 w2 H).
    apply order_item_success_inv in Hit as (i&p&amount&_&_&Hmul&Hadd).
    destruct Hnan as [->|Hex].
    + left. now apply (float_plus_nan amount).
    + inversion Hex as [? ? Hq|? ? Hq]; subst; [left | now right].
      unfold dict_get in Hmul. rewrite Hq in Hmul. simpl in Hmul.
      rewrite price_times_nan in Hmul. injection Hmul as <-.
      simpl in Hadd. rewrite float_add_nan_r in Hadd. now injection Hadd.
Qed.

(** X9. A quantity that is NaN is above no stock, so it passes the stock
    check of every product; and when a request with such a line item is
    placed, the total computed, returned and persisted is NaN. *)
Theorem nan_quantity_poisons_total (order : Order) (w w' : world)
    (resp : OrderCreated) (it : item) :
  In it (items order) ->
  it !! "quantity" = Some (VFloat S754_nan) ->
  create_order order w = (inr resp, w') ->
  (forall s, int_lt s (VFloat S754_nan) = inr false) /\
  resp_total resp = S754_nan /\
  exists i doc, db_order w' = db_order w ++ [(i, doc)] /\
                total doc = S754_nan.
Proof.
  intros Hin Hq H. split; [reflexivity|].
  rewrite create_order_spec in H.
  destruct (order_loop (items order) float_zero w) as [[e|t] w1] eqn:Hl;
    [discriminate|].
  assert (Ht : t = S754_nan).
  { apply (order_loop_nan _ _ _ _ _ Hl). right.
    apply Exists_exists. exists it. split; [|exact Hq].
    now apply list_elem_of_In. }
  apply order_loop_frame in Hl as (_&Ho&_).
  injection H as <- <-. simpl. split; [exact Ht|].
  exists (oid_next w1), (set_total order t). rewrite Ho. auto.
Qed.

Lemma nan_quantity_poisons_total_witness :
  (forall s, int_lt s (VFloat S754_nan) = inr false) /\
  S754_nan = S754_nan /\
  exists i doc,
    db_order (snd (create_order
                     (ex_order [ex_item_with ex_id_B (VFloat S754_nan)]
                        "pending") ex_world)) =
      db_order ex_world ++ [(i, doc)] /\
    total doc = S754_nan.
Proof.
  apply (nan_quantity_poisons_total
           (ex_order [ex_item_with ex_id_B (VFloat S754_nan)] "pending")
           ex_world _
           {| resp_id := "000000000000000000001000";
              resp_total := S754_nan |}
           (ex_item_with ex_id_B (VFloat S754_nan))).
  - left. reflexivity.
  - vm_compute. reflexivity.
  - vm_compute. reflexivity.
Defined.

(** ** The failures of [create_order] *)

Lemma int_to_float_error (n : Z) (e : exn) :
  int_to_float n = inl e -> e = OverflowError.
Proof.
  unfold int_to_float.
  destruct (binary_normalize prec emax n 0 false); congruence.
Qed.

Lemma int_lt_error (s : Z) (q : value) (e : exn) :
  int_lt s q = inl e -> e = TypeError.
Proof. destruct q; simpl; congruence. Qed.

Lemma float_times_error (x : float) (q : value) (e : exn) :
  float_times x q = inl e -> e = TypeError \/ e = OverflowError.
Proof.
  destruct q; simpl; try (intros [= <-]; now left); try discriminate.
  destruct (int_to_float n) eqn:Hn; [|discriminate].
  intros [= <-]. right. now apply (int_to_float_error n).
Qed.

Lemma int_times_error (a : Z) (q : value) (e : exn) :
  int_times a q = inl e -> e = TypeError \/ e = OverflowError.
Proof.
  destruct q; simpl; try (intros [= <-]; now left); try discriminate.
  destruct (int_to_float a) eqn:Hn; [|discriminate].
  intros [= <-]. right. now apply (int_to_float_error a).
Qed.

Lemma float_plus_error (t : float) (amount : value) (e : exn) :
  float_plus t amount = inl e -> e = TypeError \/ e = OverflowError.
Proof.
  destruct amount; simpl; try (intros [= <-]; now left); try discriminate.
  destruct (int_to_float n) eqn:Hn; [|discriminate].
  intros [= <-]. right. now apply (int_to_float_error n).
Qed.

Lemma arith_error_allowed (e : exn) :
  e = TypeError \/ e = OverflowError -> create_order_error e.
Proof. intros [->| ->]; exact I. Qed.

Lemma order_item_error (it : item) (t : float) (w w' : world) (e : exn) :
  order_item it t w = (inl e, w') -> create_order_error e.
Proof.
  unfold order_item, getitem. intros H.
  unfold bind at 1, lift at 1 in H.
  destruct (it !! "product_id") as [pid|].
  2: { injection H as <- _. now left. }
  unfold bind at 1 in H.
  destruct (oid pid w) as [[e0|i] w0] eqn:Hoid.
  { injection H as <- _.
    pose proof (oid_error pid w) as Herr.
    destruct (Herr e0 w0 Hoid) as [-> _]. right. auto. }
  unfold bind at 1, find_one at 1 in H.
  cbv beta iota delta [db document] in H.
  destruct (lookup_id i (db_product w0)) as [p|].
  2: { unfold raise in H. injection H as <- _. left. eauto. }
  unfold bind at 1, lift at 1 in H.
  destruct (int_lt _ _) as [e0|[|]] eqn:Hlt.
  - injection H as <- _. apply int_lt_error in Hlt as ->. exact I.
  - unfold bind, lift, raise, get_title in H.
    destruct (doc_title p) as [ttl|]; injection H as <- _.
    + right. eauto.
    + now right.
  - unfold bind at 1, lift at 1 in H.
    destruct (price_times p _) as [e0|amount] eqn:Hmul.
    + injection H as <- _. apply arith_error_allowed.
      unfold price_times in Hmul. destruct (doc_price p).
      * now apply float_times_error in Hmul.
      * now apply int_times_error in Hmul.
    + unfold lift in H. injection H as H _.
      apply arith_error_allowed. now apply float_plus_error in H.
Qed.

(** X10. The only [HTTPException]s [create_order] raises are the 404
    [Product ... not found], the 400 [Invalid id] and the 400
    [Insufficient stock for ...]; any other failure is a [KeyError] of
    ["product_id"] or ["title"], a [TypeError] or an [OverflowError],
    which are not client errors; the [InvalidId] of [bson] never
    escapes. *)
Theorem create_order_failures (order : Order) (w w' : world) (e : exn) :
  create_order order w = (inl e, w') -> create_order_error e.
Proof.
  rewrite create_order_spec.
  destruct (order_loop (items order) float_zero w) as [[e0|t] w1] eqn:Hl;
    [|discriminate].
  intros [= <- _]. revert Hl. generalize float_zero. revert w.
  induction (items order) as [|it its IH]; intros w t Hl; simpl in Hl.
  - discriminate.
  - unfold bind in Hl.
    destruct (order_item it t w) as [[e1|t1] w2] eqn:Hit.
    + injection Hl as <- _. now apply (order_item_error it t w w2).
    + now apply (IH w2 t1).
Qed.

Lemma create_order_failures_witness :
  create_order_error
    (HTTPException 404 ("Product " +:+ ex_id_missing +:+ " not found")).
Proof.
  apply (create_order_failures
           (ex_order [ex_item ex_id_missing 1] "pending") ex_world
           (looked_up (ex_oid ex_id_missing) ex_world)).
  vm_compute. reflexivity.
Defined.

(** ** The calls of a successful request *)

(** X11. A request that succeeds has asked the catalog exactly once for
    each line item, in input order and for the id that item names, and has
    then made one insert into the order collection; it made no other call
    to the store. *)
Theorem successful_order_calls (order : Order) (w w' : world)
    (resp : OrderCreated) :
  create_order order w = (inr resp, w') ->
  exists ids j,
    log w' = log w ++ map (FindOne coll_product) ids ++
             [InsertOne coll_order j] /\
    Forall2 asks_for (items order) ids /\
    resp_id resp = ObjectId_str j.
Proof.
  rewrite create_order_spec.
  destruct (order_loop (items order) float_zero w) as [[e|t] w1] eqn:Hl;
    [discriminate|].
  intros [= <- <-].
  apply order_loop_success_log in Hl as (ids&Hlog&Hall).
  exists ids, (oid_next w1). simpl. rewrite Hlog, <- app_assoc. auto.
Qed.

Lemma successful_order_calls_witness :
  exists ids j,
    log (snd (create_order
                (ex_order [ex_item ex_id_A 2; ex_item ex_id_A 1] "pending")
                ex_world)) =
      log ex_world ++ map (FindOne coll_product) ids ++
      [InsertOne coll_order j] /\
    Forall2 asks_for [ex_item ex_id_A 2; ex_item ex_id_A 1] ids /\
    "000000000000000000001000" = ObjectId_str j.
Proof.
  apply (successful_order_calls
           (ex_order [ex_item ex_id_A 2; ex_item ex_id_A 1] "pending")
           ex_world _
           {| resp_id := "000000000000000000001000";
              resp_total := S754_finite false 8444249301319680 (-48) |}).
  vm_compute. reflexivity.
Defined.

(** ** Acceptance, line item by line item *)

Lemma order_item_other_type (it : item) (pid : value) (t : float)
    (w : world) :
  it !! "product_id" = Some pid ->
  pid <> VNone -> (forall s, pid <> VStr s) ->
  order_item it t w = (inl (HTTPException 400 "Invalid id"), w).
Proof.
  intros Hpid Hnone Hstr. unfold order_item, getitem. rewrite Hpid.
  unfold bind at 1, lift at 1. unfold bind at 1. rewrite oid_spec.
  destruct pid; try reflexivity; [contradiction | now destruct (Hstr s)].
Qed.

Lemma amount_can_be_added (p : ProductDoc) (q amount : value) (s : Z)
    (t : float) :
  within_stock q s -> price_times p q = inr amount ->
  exists t1, float_plus t amount = inr t1.
Proof.
  unfold price_times.
  destruct q as [|c|n|f| | |]; simpl; try tauto; intros _;
    destruct (doc_price p) as [x|]; simpl;
    try (intros [= <-]; simpl; eauto).
  destruct (int_to_float n); [discriminate|]. intros [= <-]. simpl. eauto.
Qed.

Lemma order_item_acceptable (cat : list (ObjectId * ProductDoc)) (it : item)
    (t : float) (w : world) :
  db_product w = cat -> acceptable cat it ->
  exists t1 i, order_item it t w = (inr t1, looked_up i w).
Proof.
  intros Hw (s&i&p&amount&(Hpid&Hs)&Hl&Hq&Hmul).
  destruct (amount_can_be_added p _ amount _ t Hq Hmul) as [t1 Hadd].
  exists t1, i. rewrite (order_item_str it s i t w Hpid Hs), Hw, Hl.
  apply int_lt_within in Hq. now rewrite Hq, Hmul, Hadd.
Qed.

Lemma order_item_success_acceptable (it : item) (t t1 : float)
    (w w1 : world) :
  names_product it -> order_item it t w = (inr t1, w1) ->
  acceptable (db_product w) it.
Proof.
  intros Hname H.
  destruct (it !! "product_id") as [pid|] eqn:Hpid.
  2: { now rewrite order_item_no_product_id in H. }
  destruct pid as [| | | |s| |];
    try (rewrite (order_item_other_type it _ t w Hpid) in H;
         [discriminate | discriminate | intros s0; discriminate]).
  - now destruct (Hname Hpid).
  - destruct (ObjectId_of_str s) as [i|] eqn:Hs.
    2: { now rewrite (order_item_invalid it s t w Hpid Hs) in H. }
    rewrite (order_item_str it s i t w Hpid Hs) in H.
    destruct (lookup_id i (db_product w)) as [p|] eqn:Hl; [|discriminate].
    destruct (int_lt _ _) as [e|[|]] eqn:Hlt; try discriminate.
    { destruct (get_title p); discriminate. }
    destruct (price_times p _) as [e|amount] eqn:Hmul; [discriminate|].
    exists s, i, p, amount. repeat split; auto. now apply int_lt_within.
Qed.

Lemma order_loop_acceptable (cat : list (ObjectId * ProductDoc))
    (its : list item) (t : float) (w : world) :
  db_product w = cat -> Forall (acceptable cat) its ->
  exists t1 w1, order_loop its t w = (inr t1, w1).
Proof.
  intros Hw H. revert t w Hw.
  induction H as [|it its Hit _ IH]; intros t w Hw; simpl.
  - unfold ret. eauto.
  - destruct (order_item_acceptable cat it t w Hw Hit) as (t1&i&Hi).
    unfold bind. rewrite Hi. now apply IH.
Qed.

Lemma order_loop_success_acceptable (its : list item) (t t1 : float)
    (w w1 : world) :
  Forall names_product its -> order_loop its t w = (inr t1, w1) ->
  Forall (acceptable (db_product w)) its.
Proof.
  intros Hn. revert t w.
  induction Hn as [|it its Hit _ IH]; intros t w H; [constructor|].
  simpl in H. unfold bind in H.
  destruct (order_item it t w) as [[e|t2] w2] eqn:Hitem; [discriminate|].
  constructor.
  - now apply (order_item_success_acceptable it t t2 w w2).
  - apply order_item_frame in Hitem as (Hp&_). rewrite <- Hp.
    now apply (IH t2 w2).
Qed.

Lemma create_order_acceptable (order : Order) (w : world) :
  Forall names_product (items order) ->
  ((exists resp w', create_order order w = (inr resp, w')) <->
   Forall (acceptable (db_product w)) (items order)).
Proof.
  intros Hn. rewrite create_order_spec. split.
  - intros (resp&w'&H).
    destruct (order_loop (items order) float_zero w) as [[e|t] w1] eqn:Hl;
      [discriminate|].
    now apply (order_loop_success_acceptable _ float_zero t w w1).
  - intros Hall.
    destruct (order_loop_acceptable (db_product w) (items order) float_zero
                w eq_refl Hall) as (t1&w1&->).
    eauto.
Qed.

(** X12. Validation is line item by line item: a request none of whose
    product ids is [None] is accepted if and only if each of its line
    items is acceptable on its own, that is, names a product of the
    catalog by a well-formed id and asks for a quantity that is a number
    not above the stock and that the price can be multiplied by. *)
Theorem accepted_iff_each_item_acceptable (order : Order) (w : world) :
  Forall names_product (items order) ->
  ((exists resp w', create_order order w = (inr resp, w')) <->
   Forall (acceptable (db_product w)) (items order)).
Proof. apply create_order_acceptable. Qed.

Lemma accepted_iff_each_item_acceptable_witness :
  (exists resp w',
     create_order (ex_order [ex_item ex_id_A 2] "pending") ex_world =
       (inr resp, w')) <->
  Forall (acceptable (db_product ex_world)) [ex_item ex_id_A 2].
Proof.
  apply (accepted_iff_each_item_acceptable
           (ex_order [ex_item ex_id_A 2] "pending") ex_world).
  repeat constructor. vm_compute. discriminate.
Defined.

(** X13. Whether a request is accepted does not depend on the order of
    its line items: if a request none of whose product ids is [None] is
    accepted, so is every request with the same line items in another
    order. *)
Theorem acceptance_ignores_item_order (order order' : Order) (w w' : world)
    (resp : OrderCreated) :
  Permutation (items order) (items order') ->
  Forall names_product (items order) ->
  create_order order w = (inr resp, w') ->
  exists resp' w'', create_order order' w = (inr resp', w'').
Proof.
  intros Hperm Hn H.
  apply create_order_acceptable.
  - now apply (Permutation_Forall Hperm).
  - apply (Permutation_Forall Hperm).
    apply create_order_acceptable; eauto.
Qed.

Lemma acceptance_ignores_item_order_witness :
  exists resp' w'',
    create_order (ex_order [ex_item ex_id_A 1; ex_item ex_id_A 2] "pending")
      ex_world = (inr resp', w'').
Proof.
  apply (acceptance_ignores_item_order
           (ex_order [ex_item ex_id_A 2; ex_item ex_id_A 1] "pending")
           (ex_order [ex_item ex_id_A 1; ex_item ex_id_A 2] "pending")
           ex_world
           (snd (create_order
                   (ex_order [ex_item ex_id_A 2; ex_item ex_id_A 1] "pending")
                   ex_world))
           {| resp_id := "000000000000000000001000";
              resp_total := S754_finite false 8444249301319680 (-48) |}).
  - apply perm_swap.
  - repeat constructor; vm_compute; discriminate.
  - vm_compute. reflexivity.
Defined.

(** ** Placing the same order again *)

Lemma order_item_static (it : item) (t : float) (w w2 : world) :
  names_product it -> db_product w2 = db_product w ->
  fst (order_item it t w2) = fst (order_item it t w).
Proof.
  intros Hname Hw.
  destruct (it !! "product_id") as [pid|] eqn:Hpid.
  2: { now rewrite !order_item_no_product_id. }
  destruct pid as [| | | |s| |];
    try (rewrite !(order_item_other_type it _ t _ Hpid);
         [reflexivity | discriminate | intros s0; discriminate
         | discriminate | intros s0; discriminate]).
  - now destruct (Hname Hpid).
  - destruct (ObjectId_of_str s) as [i|] eqn:Hs.
    + rewrite !(order_item_str it s i t _ Hpid Hs), Hw. reflexivity.
    + now rewrite !(order_item_invalid it s t _ Hpid Hs).
Qed.

Lemma order_loop_static (its : list item) (t : float) (w w2 : world) :
  Forall names_product its -> db_product w2 = db_product w ->
  fst (order_loop its t w2) = fst (order_loop its t w).
Proof.
  intros Hn. revert t w w2.
  induction Hn as [|it its Hit _ IH]; intros t w w2 Hw; [reflexivity|].
  simpl. unfold bind.
  pose proof (order_item_static it t w w2 Hit Hw) as Hfst.
  destruct (order_item it t w2) as [[e2|t2] w2'] eqn:H2,
           (order_item it t w) as [[e1|t1] w1'] eqn:H1;
    simpl in Hfst; try discriminate; injection Hfst as <-; [reflexivity|].
  apply IH.
  apply order_item_frame in H1 as (Hp1&_).
  apply order_item_frame in H2 as (Hp2&_). congruence.
Qed.

(** X14. Placing an order reserves nothing: a request (none of whose
    product ids is [None]) that was accepted is accepted again in the
    world it left, with the same total, so both orders are persisted one
    after the other and the catalog is still the one before the first. *)
Theorem accepted_order_can_be_repeated (order : Order) (w w' : world)
    (resp : OrderCreated) :
  Forall names_product (items order) ->
  create_order order w = (inr resp, w') ->
  exists resp' w'' i j doc,
    create_order order w' = (inr resp', w'') /\
    resp_total resp' = resp_total resp /\
    db_product w'' = db_product w /\
    db_order w'' = db_order w ++ [(i, doc); (j, doc)] /\
    total doc = resp_total resp.
Proof.
  intros Hn H.
  rewrite create_order_spec in H.
  destruct (order_loop (items order) float_zero w) as [[e|t] w1] eqn:Hl;
    [discriminate|].
  injection H as <- <-.
  apply order_loop_frame in Hl as Hfr1. destruct Hfr1 as (Hp1&Ho1&_).
  set (w' := record _ _).
  assert (Hp' : db_product w' = db_product w) by exact Hp1.
  pose proof (order_loop_static (items order) float_zero w w' Hn Hp') as Hst.
  rewrite Hl in Hst. rewrite create_order_spec.
  destruct (order_loop (items order) float_zero w') as [[e|t'] w2] eqn:Hl2;
    simpl in Hst; [discriminate|]. injection Hst as ->.
  apply order_loop_frame in Hl2 as (Hp2&Ho2&_).
  do 2 eexists. exists (oid_next w1), (oid_next w2), (set_total order t).
  split; [reflexivity|]. simpl. rewrite Hp2, Ho2. subst w'. simpl.
  rewrite Ho1, <- app_assoc. auto.
Qed.

Lemma accepted_order_can_be_repeated_witness :
  exists resp' w'' i j doc,
    create_order (ex_order [ex_item ex_id_A 5] "pending")
      (snd (create_order (ex_order [ex_item ex_id_A 5] "pending") ex_world)) =
      (inr resp', w'') /\
    resp_total resp' = S754_finite false 7036874417766400 (-47) /\
    db_product w'' = db_product ex_world /\
    db_order w'' = db_order ex_world ++ [(i, doc); (j, doc)] /\
    total doc = S754_finite false 7036874417766400 (-47).
Proof.
  apply (accepted_order_can_be_repeated
           (ex_order [ex_item ex_id_A 5] "pending") ex_world _
           {| resp_id := "000000000000000000001000";
              resp_total := S754_finite false 7036874417766400 (-47) |}).
  - repeat constructor. vm_compute. discriminate.
  - vm_compute. reflexivity.
Defined.

(** ** A catalog filled by [create_product] *)

Lemma lookup_id_In {D} (i : ObjectId) (d : D) (l : list (ObjectId * D)) :
  lookup_id i l = Some d -> exists j, In (j, d) l.
Proof.
  induction l as [|[j e] l IH]; simpl; [discriminate|].
  destruct (N.eqb i j).
  - intros [= ->]. eauto.
  - intros H. destruct (IH H) as [k Hk]. eauto.
Qed.

Lemma order_item_title (it : item) (t : float) (w w' : world) (e : exn) :
  catalog_complete (db_product w) ->
  order_item it t w = (inl e, w') -> e <> KeyError "title".
Proof.
  intros Hcat H.
  destruct (it !! "product_id") as [pid|] eqn:Hpid.
  2: { rewrite order_item_no_product_id in H by exact Hpid.
       injection H as <- _. discriminate. }
  pose proof H as Herr. apply order_item_error in Herr.
  unfold order_item, getitem in H. rewrite Hpid in H.
  unfold bind at 1, lift at 1 in H. unfold bind at 1 in H.
  destruct (oid pid w) as [[e0|i] w0] eqn:Hoid.
  { injection H as <- _.
    pose proof (oid_error pid w) as Hbad.
    destruct (Hbad e0 w0 Hoid) as [-> _]. discriminate. }
  apply oid_frame in Hoid as (Hp&_).
  unfold bind at 1, find_one at 1 in H.
  cbv beta iota delta [db document] in H. rewrite Hp in H.
  destruct (lookup_id i (db_product w)) as [p|] eqn:Hl.
  2: { unfold raise in H. injection H as <- _. discriminate. }
  assert (Httl : is_Some (doc_title p)).
  { apply lookup_id_In in Hl as [j Hj].
    unfold catalog_complete in Hcat. rewrite List.Forall_forall in Hcat.
    apply (Hcat (j, p) Hj). }
  destruct Httl as [ttl Httl].
  unfold bind at 1, lift at 1 in H.
  destruct (int_lt _ _) as [e0|[|]] eqn:Hlt.
  - injection H as <- _. apply int_lt_error in Hlt as ->. discriminate.
  - unfold bind, lift, raise, get_title in H. rewrite Httl in H.
    injection H as <- _. discriminate.
  - unfold bind at 1, lift at 1 in H.
    destruct (price_times p _) as [e0|amount] eqn:Hmul.
    + injection H as <- _. unfold price_times in Hmul.
      destruct (doc_price p).
      * apply float_times_error in Hmul as [->| ->]; discriminate.
      * apply int_times_error in Hmul as [->| ->]; discriminate.
    + unfold lift in H. injection H as H _.
      apply float_plus_error in H as [->| ->]; discriminate.
Qed.

(** X15. A catalog in which every product has a title, a price and a
    stock stays so under [create_product] and [create_order]; on such a
    catalog, hence on every catalog that only [create_product] has filled,
    [create_order] never fails with the [KeyError] of [product['title']]:
    an insufficient stock is always answered with the 400. *)
Theorem complete_catalog_is_kept (w : world) :
  catalog_complete (db_product w) ->
  (forall product,
     catalog_complete (db_product (snd (create_product product w)))) /\
  (forall order,
     catalog_complete (db_product (snd (create_order order w))) /\
     fst (create_order order w) <> inl (KeyError "title")).
Proof.
  intros Hcat. split.
  - intros product. simpl. apply Forall_app. split; [exact Hcat|].
    repeat constructor; simpl; eauto.
  - intros order. split.
    + rewrite create_order_spec.
      destruct (order_loop (items order) float_zero w) as [[e|t] w1] eqn:Hl;
        apply order_loop_frame in Hl as (Hp&_); simpl; now rewrite Hp.
    + rewrite create_order_spec.
      destruct (order_loop (items order) float_zero w) as [[e|t] w1] eqn:Hl;
        [|discriminate].
      simpl. intros [= ->]. revert Hl Hcat. generalize float_zero. revert w.
      induction (items order) as [|it its IH]; intros w t Hl Hcat;
        simpl in Hl; [discriminate|].
      unfold bind in Hl.
      destruct (order_item it t w) as [[e1|t1] w2] eqn:Hit.
      * injection Hl as -> _.
        now apply (order_item_title it t w w2 _ Hcat Hit).
      * apply order_item_frame in Hit as (Hp&_).
        apply (IH w2 t1 Hl). now rewrite Hp.
Qed.

Lemma ex_world_complete : catalog_complete (db_product ex_world).
Proof. repeat constructor; simpl; eauto. Defined.

Lemma complete_catalog_is_kept_witness :
  (forall product,
     catalog_complete (db_product (snd (create_product product ex_world)))) /\
  (forall order,
     catalog_complete (db_product (snd (create_order order ex_world))) /\
     fst (create_order order ex_world) <> inl (KeyError "title")).
Proof.
  apply (complete_catalog_is_kept ex_world). exact ex_world_complete.
Defined.
